(** * Passcode guessing game: scoring engine and game life cycle

    A shallow embedding of the backend services
    ([app/services/guess_service.py], [app/services/game_service.py]) over
    the in-memory storage backend ([app/storage/memory_store.py]), with the
    pydantic models of [app/models] as records and the request schemas of
    [app/schemas/requests.py] as boolean checks.  The Supabase backend
    talks to an external database and is not modelled.

    Python [int] is [Z], [str] is [string] (a character is an [ascii]),
    [Optional] is [option], an exception is the [Raise] branch of [result].
    The two counting dicts of [calculate_match] are insertion-ordered
    association lists, the storage dicts keyed by identifier are
    [gmap string _].  What the identifier generator and the clock return is
    an argument ([Env]) of the services that call them. *)

From Stdlib Require Import ZArith String Ascii List.
From stdpp Require Import gmap strings list fin_maps.
Import ListNotations.

Local Open Scope string_scope.
Local Open Scope list_scope.
Local Open Scope Z_scope.

(** ** Exceptions ([app/utils/exceptions.py]) and Python's own *)

Inductive Error : Set :=
  | GameNotFoundError
  | PlayerNotFoundError
  | GameFullError
  | NotYourTurnError
  | GameNotStartedError
  | NumberAlreadyLockedError
  | InvalidNumberFormatError
  | GameAlreadyCompletedError
  | PlayerNotInGameError
  (* raised by the interpreter or by pydantic, not by the services *)
  | IndexError
  | TypeError
  | AttributeError
  | ValidationError.

Inductive result (A : Type) : Type :=
  | Ok (a : A)
  | Raise (e : Error).
Arguments Ok {A} a.
Arguments Raise {A} e.

(** Sequencing: the first exception raised ends the call. *)
#[global] Instance result_bind : MBind result := fun A B k r =>
  match r with
  | Ok a => k a
  | Raise e => Raise e
  end.

(** ** Scoring engine ([guess_service.calculate_match]) *)

Module Dict.
(** A Python [dict] from characters to counters, in insertion order. *)
Definition t := list (ascii * Z).

(** [d.get(k, default)] *)
Fixpoint get (d : t) (k : ascii) (default : Z) : Z :=
  match d with
  | [] => default
  | (k', v) :: d' => if Ascii.eqb k' k then v else get d' k default
  end.

(** [d[k] = v]: a present key keeps its place, a new key goes last. *)
Fixpoint set (d : t) (k : ascii) (v : Z) : t :=
  match d with
  | [] => [(k, v)]
  | (k', v') :: d' =>
      if Ascii.eqb k' k then (k', v) :: d' else (k', v') :: set d' k v
  end.

(** [d[k]] guarded by [k in d]: [None] when the key is absent. *)
Fixpoint find (d : t) (k : ascii) : option Z :=
  match d with
  | [] => None
  | (k', v) :: d' => if Ascii.eqb k' k then Some v else find d' k
  end.
End Dict.

Record MatchResult : Set := {
  correct_digits : Z;
  correct_positions : Z
}.

(** [s[i]] on a [str]: [IndexError] past the end. *)
Definition str_index (s : string) (i : nat) : result ascii :=
  match String.get i s with
  | Some c => Ok c
  | None => Raise IndexError
  end.

(** [for i in range(4): if secret[i] == guess[i]: correct_positions += 1] *)
Fixpoint count_positions (secret guess : string) (range : list nat)
    (correct_positions : Z) : result Z :=
  match range with
  | [] => Ok correct_positions
  | i :: range' =>
      a ← str_index secret i;
      b ← str_index guess i;
      count_positions secret guess range'
        (if Ascii.eqb a b then correct_positions + 1 else correct_positions)
  end.

(** [for digit in s: d[digit] = d.get(digit, 0) + 1] *)
Fixpoint count_digits (s : list ascii) (d : Dict.t) : Dict.t :=
  match s with
  | [] => d
  | digit :: s' => count_digits s' (Dict.set d digit (Dict.get d digit 0 + 1))
  end.

(** [for digit in guess_digit_count: if digit in secret_digit_count:
       correct_digits += min(secret_digit_count[digit], guess_digit_count[digit])] *)
Fixpoint sum_common (secret_digit_count guess_digit_count : Dict.t)
    (correct_digits : Z) : Z :=
  match guess_digit_count with
  | [] => correct_digits
  | (digit, g) :: rest =>
      sum_common secret_digit_count rest
        (match Dict.find secret_digit_count digit with
         | Some s => correct_digits + Z.min s g
         | None => correct_digits
         end)
  end.

Definition calculate_match (secret guess : string) : result MatchResult :=
  correct_positions ← count_positions secret guess [0; 1; 2; 3]%nat 0;
  let secret_digit_count := count_digits (list_ascii_of_string secret) [] in
  let guess_digit_count := count_digits (list_ascii_of_string guess) [] in
  let correct_digits := sum_common secret_digit_count guess_digit_count 0 in
  Ok {| correct_digits := correct_digits;
        correct_positions := correct_positions |}.

(** ** Models ([app/models]) *)

Module Player.
Record t : Set := {
  player_id : string;
  name : string;
  secret_number : option string;
  is_ready : bool
}.

(** [Player(...)]: pydantic checks [min_length=1, max_length=50] on [name]. *)
Definition new (player_id name : string) (secret_number : option string)
    (is_ready : bool) : result t :=
  if (1 <=? String.length name)%nat && (String.length name <=? 50)%nat
  then Ok {| player_id := player_id; name := name;
             secret_number := secret_number; is_ready := is_ready |}
  else Raise ValidationError.

(** [p.secret_number = s; p.is_ready = True] *)
Definition lock (p : t) (s : string) : t :=
  {| player_id := player_id p; name := name p;
     secret_number := Some s; is_ready := true |}.
End Player.

Module Guess.
Record t : Set := {
  guess_id : string;
  game_id : string;
  guesser_player_id : string;
  target_player_id : string;
  guessed_number : string;
  correct_digits : Z;
  correct_positions : Z;
  timestamp : Z;
  turn_number : Z
}.

(** [Guess(...)]: pydantic checks [ge=0, le=4] on both counts and [ge=1]
    on [turn_number]. *)
Definition constraints (correct_digits correct_positions turn_number : Z)
    : bool :=
  (0 <=? correct_digits)%Z && (correct_digits <=? 4)%Z
  && (0 <=? correct_positions)%Z && (correct_positions <=? 4)%Z
  && (1 <=? turn_number)%Z.

Definition new (guess_id game_id guesser_player_id target_player_id
    guessed_number : string) (correct_digits correct_positions timestamp
    turn_number : Z) : result t :=
  if constraints correct_digits correct_positions turn_number
  then Ok {| guess_id := guess_id; game_id := game_id;
             guesser_player_id := guesser_player_id;
             target_player_id := target_player_id;
             guessed_number := guessed_number;
             correct_digits := correct_digits;
             correct_positions := correct_positions;
             timestamp := timestamp; turn_number := turn_number |}
  else Raise ValidationError.
End Guess.

Inductive GameStatus : Set := WAITING | IN_PROGRESS | COMPLETED.

#[global] Instance GameStatus_eq_dec : EqDecision GameStatus.
Proof. solve_decision. Defined.

Module Game.
Record t : Set := {
  game_id : string;
  player_1 : Player.t;
  player_2 : option Player.t;
  current_turn : option string;
  status : GameStatus;
  winner_id : option string;
  guesses : list Guess.t;
  created_at : Z;
  turn_count : Z
}.

(** Attribute assignments, one per attribute the services write. *)
Definition set_player_1 (g : t) (p : Player.t) : t :=
  {| game_id := game_id g; player_1 := p; player_2 := player_2 g;
     current_turn := current_turn g; status := status g;
     winner_id := winner_id g; guesses := guesses g;
     created_at := created_at g; turn_count := turn_count g |}.
Definition set_player_2 (g : t) (p : option Player.t) : t :=
  {| game_id := game_id g; player_1 := player_1 g; player_2 := p;
     current_turn := current_turn g; status := status g;
     winner_id := winner_id g; guesses := guesses g;
     created_at := created_at g; turn_count := turn_count g |}.
Definition set_current_turn (g : t) (c : option string) : t :=
  {| game_id := game_id g; player_1 := player_1 g; player_2 := player_2 g;
     current_turn := c; status := status g;
     winner_id := winner_id g; guesses := guesses g;
     created_at := created_at g; turn_count := turn_count g |}.
Definition set_status (g : t) (s : GameStatus) : t :=
  {| game_id := game_id g; player_1 := player_1 g; player_2 := player_2 g;
     current_turn := current_turn g; status := s;
     winner_id := winner_id g; guesses := guesses g;
     created_at := created_at g; turn_count := turn_count g |}.
Definition set_winner_id (g : t) (w : option string) : t :=
  {| game_id := game_id g; player_1 := player_1 g; player_2 := player_2 g;
     current_turn := current_turn g; status := status g;
     winner_id := w; guesses := guesses g;
     created_at := created_at g; turn_count := turn_count g |}.
Definition set_guesses (g : t) (l : list Guess.t) : t :=
  {| game_id := game_id g; player_1 := player_1 g; player_2 := player_2 g;
     current_turn := current_turn g; status := status g;
     winner_id := winner_id g; guesses := l;
     created_at := created_at g; turn_count := turn_count g |}.
Definition set_turn_count (g : t) (n : Z) : t :=
  {| game_id := game_id g; player_1 := player_1 g; player_2 := player_2 g;
     current_turn := current_turn g; status := status g;
     winner_id := winner_id g; guesses := guesses g;
     created_at := created_at g; turn_count := n |}.
End Game.

(** ** In-memory storage ([app/storage/memory_store.py])

    [players_db] is written by [create_player] and read back only by
    [player_service.get_player_by_id]; no operation below depends on it and
    it is left out. *)

Record Store : Type := {
  games_db : gmap string Game.t;
  game_guesses_db : gmap string (list Guess.t)
}.

Definition empty_store : Store :=
  {| games_db := ∅; game_guesses_db := ∅ |}.

(** A service call: it reads and writes the store and returns or raises.
    The store is kept as it is at the point where an exception is raised. *)
Definition M (A : Type) : Type := Store -> Store * result A.

#[global] Instance M_ret : MRet M := fun A a st => (st, Ok a).
#[global] Instance M_bind : MBind M := fun A B k m st =>
  match m st with
  | (st', Ok a) => k a st'
  | (st', Raise e) => (st', Raise e)
  end.

Definition raise {A : Type} (e : Error) : M A := fun st => (st, Raise e).
Definition lift {A : Type} (r : result A) : M A := fun st => (st, r).

Module store.
Definition create_game (game : Game.t) : M Game.t := fun st =>
  ({| games_db := <[Game.game_id game := game]> (games_db st);
      game_guesses_db := <[Game.game_id game := []]> (game_guesses_db st) |},
   Ok game).

Definition get_game (game_id : string) : M (option Game.t) := fun st =>
  (st, Ok (games_db st !! game_id)).

Definition update_game (game : Game.t) : M Game.t := fun st =>
  ({| games_db := <[Game.game_id game := game]> (games_db st);
      game_guesses_db := game_guesses_db st |},
   Ok game).

Definition delete_game (game_id : string) : M bool := fun st =>
  match games_db st !! game_id with
  | Some _ =>
      ({| games_db := delete game_id (games_db st);
          game_guesses_db := delete game_id (game_guesses_db st) |},
       Ok true)
  | None => (st, Ok false)
  end.

Definition add_guess (guess : Guess.t) : M Guess.t := fun st =>
  ({| games_db := games_db st;
      game_guesses_db :=
        <[Guess.game_id guess :=
            (default [] (game_guesses_db st !! Guess.game_id guess)
               ++ [guess])%list]>
          (game_guesses_db st) |},
   Ok guess).

Definition get_guesses_by_game (game_id : string) : M (list Guess.t) :=
  fun st => (st, Ok (default [] (game_guesses_db st !! game_id))).
End store.

(** [store.get_game] hands out the very object that [games_db[game_id]]
    holds, so an attribute assignment on it shows in the store at once,
    before any [update_game], and stays there if an exception follows.
    [assign ref game] is such an assignment: [ref] is the key the object was
    fetched under and [game] the object after the assignment.  (No object is
    ever stored under two keys: [create_game] and [update_game] file a game
    under its own [game_id], which nothing assigns.) *)
Definition assign (ref : string) (game : Game.t) : M unit := fun st =>
  ({| games_db := <[ref := game]> (games_db st);
      game_guesses_db := game_guesses_db st |},
   Ok tt).

(** ** Collaborators: identifier generator and clock

    What [generate_player_id], [generate_game_id], [generate_guess_id] and
    [datetime.utcnow] give during one call. *)

Record Env : Set := {
  generate_player_id : string;
  generate_game_id : string;
  generate_guess_id : string;
  utcnow : Z
}.

(** ** Game life cycle ([app/services/game_service.py]) *)

(** [x = store.get_game(game_id); if not x: raise GameNotFoundError] *)
Definition fetch_game (game_id : string) : M Game.t :=
  game ← store.get_game game_id;
  match game with
  | Some game => mret game
  | None => raise GameNotFoundError
  end.

Definition create_new_game (env : Env) (player_name : string)
    : M (Game.t * string) :=
  let player_id := generate_player_id env in
  player ← lift (Player.new player_id player_name None false);
  let game_id := generate_game_id env in
  let game :=
    {| Game.game_id := game_id; Game.player_1 := player;
       Game.player_2 := None; Game.current_turn := None;
       Game.status := WAITING; Game.winner_id := None;
       Game.guesses := []; Game.created_at := utcnow env;
       Game.turn_count := 0 |} in
  store.create_game game ;;
  mret (game, player_id).

Definition join_game (env : Env) (game_id player_name : string)
    : M (Game.t * string) :=
  game ← fetch_game game_id;
  if bool_decide (Game.player_2 game ≠ None) then raise GameFullError else
  if bool_decide (Game.status game = COMPLETED)
  then raise GameAlreadyCompletedError else
  let player_id := generate_player_id env in
  player ← lift (Player.new player_id player_name None false);
  let game := Game.set_player_2 game (Some player) in
  assign game_id game ;;
  store.update_game game ;;
  mret (game, player_id).

(** The branch of [lock_player_number] that finds the slot and locks it. *)
Definition lock_slot (game : Game.t) (player_id secret_number : string)
    : result Game.t :=
  if bool_decide (Player.player_id (Game.player_1 game) = player_id) then
    if Player.is_ready (Game.player_1 game)
    then Raise NumberAlreadyLockedError
    else Ok (Game.set_player_1 game
               (Player.lock (Game.player_1 game) secret_number))
  else
    match Game.player_2 game with
    | Some player_2 =>
        if bool_decide (Player.player_id player_2 = player_id) then
          if Player.is_ready player_2
          then Raise NumberAlreadyLockedError
          else Ok (Game.set_player_2 game
                     (Some (Player.lock player_2 secret_number)))
        else Raise PlayerNotInGameError
    | None => Raise PlayerNotInGameError
    end.

(** [game.player_1 and game.player_1.is_ready and
     game.player_2 and game.player_2.is_ready] *)
Definition both_ready (game : Game.t) : bool :=
  Player.is_ready (Game.player_1 game)
  && match Game.player_2 game with
     | Some player_2 => Player.is_ready player_2
     | None => false
     end.

(** The branch of [lock_player_number] that starts the game:
    [game.status = IN_PROGRESS; game.current_turn = game.player_1.player_id]
    when both are ready. *)
Definition start_if_ready (game : Game.t) : Game.t :=
  if both_ready game
  then Game.set_current_turn (Game.set_status game IN_PROGRESS)
         (Some (Player.player_id (Game.player_1 game)))
  else game.

Definition lock_player_number (game_id player_id secret_number : string)
    : M Game.t :=
  game ← fetch_game game_id;
  if bool_decide (Game.status game = COMPLETED)
  then raise GameAlreadyCompletedError else
  game ← lift (lock_slot game player_id secret_number);
  assign game_id game ;;
  let game := start_if_ready game in
  assign game_id game ;;
  store.update_game game.

Definition get_game_status (game_id : string) : M Game.t :=
  fetch_game game_id.

Definition delete_game_by_id (game_id : string) : M bool :=
  fetch_game game_id ;;
  store.delete_game game_id.

Definition get_current_turn (game_id : string) : M (option string) :=
  game ← fetch_game game_id;
  mret (Game.current_turn game).

Definition validate_turn (game : Game.t) (player_id : string) : bool :=
  bool_decide (Game.current_turn game = Some player_id).

(** [switch_turn] assigns [game.current_turn]; the game returned is the
    object after the assignment, [game.player_2.player_id] raises
    [AttributeError] when slot 2 is empty. *)
Definition switch_turn (game : Game.t) : result Game.t :=
  if bool_decide (Game.current_turn game
                  = Some (Player.player_id (Game.player_1 game)))
  then
    match Game.player_2 game with
    | Some player_2 =>
        Ok (Game.set_current_turn game (Some (Player.player_id player_2)))
    | None => Raise AttributeError
    end
  else
    Ok (Game.set_current_turn game
          (Some (Player.player_id (Game.player_1 game)))).

Definition get_opponent (game : Game.t) (player_id : string)
    : option Player.t :=
  if bool_decide (Player.player_id (Game.player_1 game) = player_id)
  then Game.player_2 game
  else Some (Game.player_1 game).

Definition check_winner (correct_positions : Z) : bool :=
  bool_decide (correct_positions = 4).

(** [game] is the object held at [games_db[ref]]. *)
Definition set_winner (ref : string) (game : Game.t) (winner_id : string)
    : M Game.t :=
  let game := Game.set_winner_id game (Some winner_id) in
  assign ref game ;;
  let game := Game.set_status game COMPLETED in
  assign ref game ;;
  store.update_game game.

(** ** Guess processing ([guess_service.process_guess]) *)

Module GuessResult.
(** The dict that [process_guess] returns. *)
Record t : Set := {
  guess_id : string;
  guessed_number : string;
  correct_digits : Z;
  correct_positions : Z;
  is_winner : bool;
  next_turn : option string;
  winner_id : option string;
  turn_number : Z
}.
End GuessResult.

(** [x.attr] where [x] may be [None] *)
Definition attr {A : Type} (x : option A) : result A :=
  match x with
  | Some a => Ok a
  | None => Raise AttributeError
  end.

(** [secret[i]] where [secret] may be [None] *)
Definition subscriptable (secret : option string) : result string :=
  match secret with
  | Some s => Ok s
  | None => Raise TypeError
  end.

Definition process_guess (env : Env) (game_id player_id guessed_number : string)
    : M GuessResult.t :=
  game ← fetch_game game_id;
  if bool_decide (Game.status game = WAITING)
  then raise GameNotStartedError else
  if bool_decide (Game.status game = COMPLETED)
  then raise GameAlreadyCompletedError else
  let is_player_1 :=
    bool_decide (Player.player_id (Game.player_1 game) = player_id) in
  let is_player_2 :=
    match Game.player_2 game with
    | Some player_2 => bool_decide (Player.player_id player_2 = player_id)
    | None => false
    end in
  if negb is_player_1 && negb is_player_2
  then raise PlayerNotInGameError else
  if negb (validate_turn game player_id) then raise NotYourTurnError else
  opponent ← lift (attr (get_opponent game player_id));
  secret_number ← lift (subscriptable (Player.secret_number opponent));
  match_result ← lift (calculate_match secret_number guessed_number);
  let game := Game.set_turn_count game (Game.turn_count game + 1) in
  assign game_id game ;;
  guess ← lift (Guess.new (generate_guess_id env) game_id player_id
                  (Player.player_id opponent) guessed_number
                  (correct_digits match_result)
                  (correct_positions match_result)
                  (utcnow env) (Game.turn_count game));
  store.add_guess guess ;;
  let game := Game.set_guesses game (Game.guesses game ++ [guess])%list in
  assign game_id game ;;
  let is_winner := check_winner (correct_positions match_result) in
  if is_winner then
    game ← set_winner game_id game player_id;
    mret {| GuessResult.guess_id := Guess.guess_id guess;
            GuessResult.guessed_number := guessed_number;
            GuessResult.correct_digits := correct_digits match_result;
            GuessResult.correct_positions := correct_positions match_result;
            GuessResult.is_winner := true;
            GuessResult.next_turn := None;
            GuessResult.winner_id := Some player_id;
            GuessResult.turn_number := Game.turn_count game |}
  else
    game ← lift (switch_turn game);
    assign game_id game ;;
    let next_turn := Game.current_turn game in
    store.update_game game ;;
    mret {| GuessResult.guess_id := Guess.guess_id guess;
            GuessResult.guessed_number := guessed_number;
            GuessResult.correct_digits := correct_digits match_result;
            GuessResult.correct_positions := correct_positions match_result;
            GuessResult.is_winner := false;
            GuessResult.next_turn := next_turn;
            GuessResult.winner_id := None;
            GuessResult.turn_number := Game.turn_count game |}.

Definition get_game_guesses (game_id : string) : M (list Guess.t) :=
  fetch_game game_id ;;
  store.get_guesses_by_game game_id.

(** ** Transport layer ([app/schemas/requests.py], [app/routers]) *)

Definition is_digit (c : ascii) : bool :=
  (48 <=? nat_of_ascii c)%nat && (nat_of_ascii c <=? 57)%nat.

(** [pattern=r"^\d{4}$"] *)
Definition four_digits (s : string) : bool :=
  bool_decide (String.length s = 4%nat)
  && forallb is_digit (list_ascii_of_string s).

(** [min_length=1, max_length=50] *)
Definition name_length_ok (s : string) : bool :=
  (1 <=? String.length s)%nat && (String.length s <=? 50)%nat.

(** The requests that change the store, with the path parameters of their
    routes. *)
Inductive Request : Set :=
  | CreateGameRequest (player_name : string)
  | JoinGameRequest (game_id player_name : string)
  | LockNumberRequest (game_id player_id secret_number : string)
  | MakeGuessRequest (game_id player_id guessed_number : string)
  | DeleteGame (game_id : string).

Definition schema_valid (req : Request) : bool :=
  match req with
  | CreateGameRequest player_name => name_length_ok player_name
  | JoinGameRequest _ player_name => name_length_ok player_name
  | LockNumberRequest _ _ secret_number => four_digits secret_number
  | MakeGuessRequest _ _ guessed_number => four_digits guessed_number
  | DeleteGame _ => true
  end.

(** The store after the service behind a route has run, whether it returned
    or raised. *)
Definition serve (env : Env) (req : Request) (st : Store) : Store :=
  match req with
  | CreateGameRequest player_name => fst (create_new_game env player_name st)
  | JoinGameRequest game_id player_name =>
      fst (join_game env game_id player_name st)
  | LockNumberRequest game_id player_id secret_number =>
      fst (lock_player_number game_id player_id secret_number st)
  | MakeGuessRequest game_id player_id guessed_number =>
      fst (process_guess env game_id player_id guessed_number st)
  | DeleteGame game_id => fst (delete_game_by_id game_id st)
  end.

(** A request that fails its schema is answered before any service runs. *)
Definition handle (env : Env) (req : Request) (st : Store) : Store :=
  if schema_valid req then serve env req st else st.

(** The stores the application can be in: from the empty store, any
    sequence of requests, whatever the generator and the clock give. *)
Inductive reachable : Store -> Prop :=
  | reachable_empty : reachable empty_store
  | reachable_handle (env : Env) (req : Request) (st : Store) :
      reachable st -> reachable (handle env req st).

Fixpoint run (trace : list (Env * Request)) (st : Store) : Store :=
  match trace with
  | [] => st
  | (env, req) :: trace' => run trace' (handle env req st)
  end.

(** ** A game played from creation to the first guess

    Alice creates a game, Bob joins, both lock a number; [started] is the
    store when Alice is to move. *)

Definition alice_env : Env :=
  {| generate_player_id := "player_a"; generate_game_id := "game_1";
     generate_guess_id := "guess_1"; utcnow := 0 |}.

Definition bob_env : Env :=
  {| generate_player_id := "player_b"; generate_game_id := "game_2";
     generate_guess_id := "guess_2"; utcnow := 1 |}.

Definition opening : list (Env * Request) :=
  [ (alice_env, CreateGameRequest "Alice");
    (bob_env, JoinGameRequest "game_1" "Bob");
    (alice_env, LockNumberRequest "game_1" "player_a" "1234") ].

Definition half_locked : Store := run opening empty_store.

Definition started : Store :=
  run [(bob_env, LockNumberRequest "game_1" "player_b" "5678")] half_locked.

Definition completed : Store :=
  run [(alice_env, MakeGuessRequest "game_1" "player_a" "5678")] started.

(** Had Alice guessed "5670" instead, the game would go on. *)
Definition midgame : Store :=
  run [(alice_env, MakeGuessRequest "game_1" "player_a" "5670")] started.

(** ** The scoring rule as the specification words it *)

Definition occurrences (c : ascii) (s : string) : Z :=
  Z.of_nat (count_occ ascii_dec (list_ascii_of_string s) c).

Definition decimal_digits : list ascii :=
  ["0"; "1"; "2"; "3"; "4"; "5"; "6"; "7"; "8"; "9"]%char.

(** Sum over the ten digit values of the smaller occurrence count. *)
Definition spec_correct_digits (secret guess : string) : Z :=
  fold_right Z.add 0
    (map (fun d => Z.min (occurrences d secret) (occurrences d guess))
       decimal_digits).

(** Number of indices [i] in [0,4) with [secret[i] = guess[i]]. *)
Definition spec_correct_positions (secret guess : string) : Z :=
  Z.of_nat
    (length
       (filter (fun i => String.get i secret = String.get i guess)
          [0; 1; 2; 3]%nat)).

(** The record that [process_guess] builds for a guess, the game once the
    guess is counted and appended, and the game once it is won. *)
Definition guess_of (env : Env) (game_id player_id guessed_number : string)
    (opponent : Player.t) (m : MatchResult) (turn_number : Z) : Guess.t :=
  {| Guess.guess_id := generate_guess_id env; Guess.game_id := game_id;
     Guess.guesser_player_id := player_id;
     Guess.target_player_id := Player.player_id opponent;
     Guess.guessed_number := guessed_number;
     Guess.correct_digits := correct_digits m;
     Guess.correct_positions := correct_positions m;
     Guess.timestamp := utcnow env; Guess.turn_number := turn_number |}.

Definition recorded (game : Game.t) (guess : Guess.t) : Game.t :=
  Game.set_guesses (Game.set_turn_count game (Game.turn_count game + 1))
    (Game.guesses game ++ [guess]).

Definition won (game : Game.t) (winner_id : string) : Game.t :=
  Game.set_status (Game.set_winner_id game (Some winner_id)) COMPLETED.

(** What one request can do to a game that stays in the store. *)
Inductive game_step (g : Game.t) : Game.t -> Prop :=
  | step_same : game_step g g
  | step_join (p : Player.t) :
      Game.player_2 g = None -> Game.status g <> COMPLETED ->
      game_step g (Game.set_player_2 g (Some p))
  | step_lock (player_id secret_number : string) (g1 : Game.t) :
      Game.status g <> COMPLETED ->
      lock_slot g player_id secret_number = Ok g1 ->
      game_step g (start_if_ready g1)
  | step_guess (guess : Guess.t) (next : string) :
      Game.status g = IN_PROGRESS ->
      game_step g (Game.set_current_turn (recorded g guess) (Some next))
  | step_win (guess : Guess.t) (winner_id : string) :
      Game.status g = IN_PROGRESS ->
      game_step g (won (recorded g guess) winner_id)
  | step_refused :
      Game.status g = IN_PROGRESS ->
      game_step g (Game.set_turn_count g (Game.turn_count g + 1)).

(** Sum of [F] over a list of characters, and sum of a dict's counters. *)
Definition total (F : ascii -> Z) (l : list ascii) : Z :=
  foldr Z.add 0 (map F l).

Fixpoint values_sum (d : Dict.t) : Z :=
  match d with
  | [] => 0
  | (_, v) :: d' => v + values_sum d'
  end.

(** ** Order of the states, and the invariant of stored games *)

(** The store once the object held at [games_db[ref]] has become [game] and
    [store.update_game] has run on it. *)
Definition put (ref : string) (game : Game.t) (st : Store) : Store :=
  {| games_db := <[Game.game_id game := game]> (<[ref := game]> (games_db st));
     game_guesses_db := game_guesses_db st |}.

Definition status_rank (s : GameStatus) : Z :=
  match s with
  | WAITING => 0
  | IN_PROGRESS => 1
  | COMPLETED => 2
  end.

(** The player of a game that [player_id] designates, as
    [lock_player_number] looks it up: slot 1 first, then slot 2. *)
Definition find_player (game : Game.t) (player_id : string)
    : option Player.t :=
  if bool_decide (Player.player_id (Game.player_1 game) = player_id)
  then Some (Game.player_1 game)
  else
    match Game.player_2 game with
    | Some player_2 =>
        if bool_decide (Player.player_id player_2 = player_id)
        then Some player_2 else None
    | None => None
    end.

Record game_inv (key : string) (g : Game.t) (history : option (list Guess.t))
    : Prop := {
  inv_key : Game.game_id g = key;
  inv_count : Game.turn_count g = Z.of_nat (length (Game.guesses g));
  inv_numbered : forall (i : nat) (x : Guess.t),
      Game.guesses g !! i = Some x -> Guess.turn_number x = Z.of_nat i + 1;
  inv_history : history = Some (Game.guesses g);
  inv_waiting : Game.status g = WAITING ->
      Game.current_turn g = None /\ Game.winner_id g = None;
  inv_started : Game.status g <> WAITING -> both_ready g = true
}.

Definition store_inv (st : Store) : Prop :=
  forall (key : string) (g : Game.t),
    games_db st !! key = Some g ->
    game_inv key g (game_guesses_db st !! key).

(** ** The rest of the storage and service modules *)

Module memory_store.
(** [[g for g in guesses if g.guesser_player_id == player_id]] over
    [game_guesses_db.get(game_id, [])] *)
Definition get_guesses_by_player (game_id player_id : string)
    : M (list Guess.t) := fun st =>
  (st,
   Ok (List.filter
         (fun g => bool_decide (Guess.guesser_player_id g = player_id))
         (default [] (game_guesses_db st !! game_id)))).

(** [len(game_guesses_db.get(game_id, []))] *)
Definition get_guess_count (game_id : string) : M Z := fun st =>
  (st, Ok (Z.of_nat (length (default [] (game_guesses_db st !! game_id))))).

Definition get_player_by_game (game_id player_id : string)
    : M (option Player.t) := fun st =>
  (st,
   Ok match games_db st !! game_id with
      | None => None
      | Some game =>
          if bool_decide (Player.player_id (Game.player_1 game) = player_id)
          then Some (Game.player_1 game)
          else
            match Game.player_2 game with
            | Some player_2 =>
                if bool_decide (Player.player_id player_2 = player_id)
                then Some player_2
                else None
            | None => None
            end
      end).

Definition is_player_in_game (game_id player_id : string) : M bool :=
  player ← get_player_by_game game_id player_id;
  mret (bool_decide (player <> None)).
End memory_store.

(** [guess_service.get_player_guesses] *)
Definition get_player_guesses (game_id player_id : string)
    : M (list Guess.t) :=
  fetch_game game_id ;;
  memory_store.get_guesses_by_player game_id player_id.

Module PlayerInfo.
(** The dict that [get_player_info] returns: the secret is not in it. *)
Record t : Set := {
  player_id : string;
  name : string;
  is_ready : bool
}.
End PlayerInfo.

Module player_service.
Definition get_player_info (game_id player_id : string) : M PlayerInfo.t :=
  game ← fetch_game game_id;
  let player :=
    if bool_decide (Player.player_id (Game.player_1 game) = player_id)
    then Some (Game.player_1 game)
    else
      match Game.player_2 game with
      | Some player_2 =>
          if bool_decide (Player.player_id player_2 = player_id)
          then Some player_2
          else None
      | None => None
      end in
  match player with
  | None => raise PlayerNotInGameError
  | Some player =>
      mret {| PlayerInfo.player_id := Player.player_id player;
              PlayerInfo.name := Player.name player;
              PlayerInfo.is_ready := Player.is_ready player |}
  end.
End player_service.

(** ** Counting position matches on lists of characters *)

(** Places where two lists agree, and places where both hold [c]. *)
Fixpoint matches (s g : list ascii) : Z :=
  match s, g with
  | a :: s', b :: g' => (if Ascii.eqb a b then 1 else 0) + matches s' g'
  | _, _ => 0
  end.

Fixpoint matches_of (c : ascii) (s g : list ascii) : Z :=
  match s, g with
  | a :: s', b :: g' =>
      (if Ascii.eqb a c && Ascii.eqb b c then 1 else 0) + matches_of c s' g'
  | _, _ => 0
  end.

(** ** Who moves when, and what a played game looks like *)

(** A slot is ready exactly when it holds a secret, and the secret came
    through the request schema. *)
Definition slot_ok (p : Player.t) : Prop :=
  if Player.is_ready p
  then exists s, Player.secret_number p = Some s /\ four_digits s = true
  else Player.secret_number p = None.

(** With [n] guesses made, player 1 moves when [n] is even and player 2
    when it is odd; the other one is guessed at. *)
Definition mover (g : Game.t) (p2 : Player.t) (n : Z) : Player.t :=
  if Z.even n then Game.player_1 g else p2.

Definition waiter (g : Game.t) (p2 : Player.t) (n : Z) : Player.t :=
  if Z.even n then p2 else Game.player_1 g.

Definition not_a_win (x : Guess.t) : Prop := Guess.correct_positions x <> 4.

Record play_inv (key : string) (g : Game.t) : Prop := {
  play_slot_1 : slot_ok (Game.player_1 g);
  play_slot_2 : forall p2, Game.player_2 g = Some p2 ->
      slot_ok p2
      /\ (Player.is_ready p2 = true ->
          Player.player_id (Game.player_1 g) <> Player.player_id p2);
  play_waiting : Game.status g = WAITING -> Game.guesses g = [];
  play_turn : Game.status g = IN_PROGRESS ->
      exists p2, Game.player_2 g = Some p2
        /\ Game.current_turn g
           = Some (Player.player_id (mover g p2 (Game.turn_count g)));
  play_open : Game.status g <> COMPLETED ->
      Game.winner_id g = None /\ Forall not_a_win (Game.guesses g);
  play_won : Game.status g = COMPLETED ->
      exists init x,
        Game.guesses g = init ++ [x]
        /\ Forall not_a_win init
        /\ Guess.correct_positions x = 4
        /\ Game.winner_id g = Some (Guess.guesser_player_id x);
  play_guesses : forall (i : nat) (x : Guess.t),
      Game.guesses g !! i = Some x ->
      exists p2 s,
        Game.player_2 g = Some p2
        /\ Guess.game_id x = key
        /\ Guess.guesser_player_id x
           = Player.player_id (mover g p2 (Z.of_nat i))
        /\ Guess.target_player_id x
           = Player.player_id (waiter g p2 (Z.of_nat i))
        /\ four_digits (Guess.guessed_number x) = true
        /\ Player.secret_number (waiter g p2 (Z.of_nat i)) = Some s
        /\ calculate_match s (Guess.guessed_number x)
           = Ok {| correct_digits := Guess.correct_digits x;
                   correct_positions := Guess.correct_positions x |}
}.

Definition store_play_inv (st : Store) : Prop :=
  forall (key : string) (g : Game.t),
    games_db st !! key = Some g -> play_inv key g.

(** ** Which game a request is about *)

(** The game a request names, or the one it creates. *)
Definition target (env : Env) (req : Request) : string :=
  match req with
  | CreateGameRequest _ => generate_game_id env
  | JoinGameRequest game_id _ => game_id
  | LockNumberRequest game_id _ _ => game_id
  | MakeGuessRequest game_id _ _ => game_id
  | DeleteGame game_id => game_id
  end.

(** The store after Alice's first request, and a second game beside the
    started one. *)
Definition created : Store :=
  run [(alice_env, CreateGameRequest "Alice")] empty_store.

Definition two_games : Store :=
  run [(bob_env, CreateGameRequest "Bob")] started.

(** * Properties *)

(** ** Scoring engine *)

Example calculate_match_docstring :
  calculate_match "1234" "1325"
  = Ok {| correct_digits := 3; correct_positions := 1 |}.
Proof. reflexivity. Qed.

Example calculate_match_short_guess :
  calculate_match "1234" "12" = Raise IndexError.
Proof. reflexivity. Qed.

Section Scoring.

Implicit Types (d : Dict.t) (c k : ascii) (l : list ascii).

Lemma ascii_eqb_decide (a b : ascii) :
  Ascii.eqb a b = bool_decide (a = b).
Proof.
  destruct (Ascii.eqb_spec a b); [rewrite bool_decide_eq_true_2|
                                  rewrite bool_decide_eq_false_2]; done.
Qed.

(** *** Exact positions *)

Lemma count_positions_filter (secret guess : string) (range : list nat) :
  Forall (fun i => is_Some (String.get i secret)
                   /\ is_Some (String.get i guess)) range ->
  forall acc : Z,
    count_positions secret guess range acc
    = Ok (acc + Z.of_nat
                  (length (filter (fun i => String.get i secret
                                            = String.get i guess) range))).
Proof.
  induction 1 as [|i range [[a Ha] [b Hb]] _ IH]; intros acc; simpl.
  - f_equal. lia.
  - unfold str_index. rewrite Ha, Hb. simpl. rewrite IH.
    rewrite filter_cons, Ha, Hb, ascii_eqb_decide.
    case_bool_decide as Hab; case_decide as Hab'; simplify_eq; simpl;
      try congruence; f_equal; lia.
Qed.

Lemma four_digits_shape (s : string) :
  four_digits s = true ->
  exists a b c e : ascii,
    s = String a (String b (String c (String e EmptyString)))
    /\ Forall (fun x => is_digit x = true) [a; b; c; e].
Proof.
  unfold four_digits. intros [Hlen Hall]%andb_true_iff.
  apply bool_decide_eq_true_1 in Hlen.
  destruct s as [|a [|b [|c [|e [|? ?]]]]]; simplify_eq/=.
  exists a, b, c, e. split; [done|].
  repeat match goal with
         | H : _ && _ = true |- _ => apply andb_true_iff in H as [? H]
         end.
  repeat constructor; done.
Qed.

Lemma four_digits_in_bounds (s : string) :
  four_digits s = true ->
  Forall (fun i => is_Some (String.get i s)) [0; 1; 2; 3]%nat.
Proof.
  intros (a & b & c & e & -> & _)%four_digits_shape.
  repeat constructor; simpl; eauto.
Qed.

(** *** The counting dicts *)

Lemma find_set d k v c :
  Dict.find (Dict.set d k v) c
  = if bool_decide (k = c) then Some v else Dict.find d c.
Proof.
  induction d as [|[k' v'] d IH]; simpl.
  - rewrite ascii_eqb_decide. done.
  - rewrite !ascii_eqb_decide.
    repeat (case_bool_decide; simplify_eq/=);
      rewrite ?ascii_eqb_decide, ?IH;
      repeat (case_bool_decide; simplify_eq/=); done.
Qed.

Lemma get_find d k : Dict.get d k 0 = default 0 (Dict.find d k).
Proof.
  induction d as [|[k' v'] d IH]; simpl; [done|].
  destruct (Ascii.eqb k' k); done.
Qed.

Lemma keys_set d k v :
  (Dict.set d k v).*1 = if decide (k ∈ d.*1) then d.*1 else d.*1 ++ [k].
Proof.
  induction d as [|[k' v'] d IH]; [done|]. cbn [Dict.set].
  rewrite !fmap_cons. cbn [fst].
  - rewrite ascii_eqb_decide. case_bool_decide as Hk; simplify_eq/=.
    + clear IH. rewrite decide_True by apply list_elem_of_here. done.
    + rewrite IH. clear IH.
      destruct (decide (k ∈ d.*1)) as [Hin|Hin].
      * rewrite decide_True by (by apply list_elem_of_further). done.
      * rewrite decide_False; [done|].
        intros [?|?]%elem_of_cons; congruence.
Qed.

Lemma find_elem_of d k v :
  NoDup d.*1 -> (k, v) ∈ d -> Dict.find d k = Some v.
Proof.
  induction d as [|[k' v'] d IH]; simpl; intros Hnd Hin.
  - by apply elem_of_nil in Hin.
  - apply NoDup_cons in Hnd as [Hk' Hnd]. rewrite ascii_eqb_decide.
    apply elem_of_cons in Hin as [Heq|Hin].
    + simplify_eq. by rewrite bool_decide_eq_true_2.
    + case_bool_decide; simplify_eq; [|by apply IH].
      destruct Hk'. apply list_elem_of_fmap. by exists (k, v).
Qed.

Lemma count_digits_find l : forall d c,
  Dict.find (count_digits l d) c
  = match count_occ ascii_dec l c with
    | O => Dict.find d c
    | S n => Some (default 0 (Dict.find d c) + Z.of_nat (S n))
    end.
Proof.
  induction l as [|x l IH]; intros d c; simpl; [done|].
  rewrite IH, find_set, get_find.
  destruct (ascii_dec x c) as [->|Hne].
  - rewrite bool_decide_eq_true_2 by done.
    destruct (count_occ ascii_dec l c); simpl; f_equal; lia.
  - rewrite bool_decide_eq_false_2 by done. done.
Qed.

Lemma count_digits_keys_NoDup l : forall d,
  NoDup d.*1 -> NoDup (count_digits l d).*1.
Proof.
  induction l as [|x l IH]; intros d Hnd; simpl; [done|].
  apply IH. rewrite keys_set. case_decide as Hin; [done|].
  apply NoDup_app. split_and!; [done| |apply NoDup_singleton].
  intros y Hy ->%list_elem_of_singleton. done.
Qed.

Lemma occurrences_nonneg c (s : string) : 0 <= occurrences c s.
Proof. unfold occurrences. lia. Qed.

(** Every entry of the dict built from [s] holds the number of
    occurrences of its key in [s], which is positive. *)
Lemma count_digits_entry (s : string) k v :
  Dict.find (count_digits (list_ascii_of_string s) []) k = Some v ->
  v = occurrences k s /\ 0 < v.
Proof.
  rewrite count_digits_find. unfold occurrences.
  destruct (count_occ _ _ _); simpl; intros; simplify_eq; lia.
Qed.

Lemma count_digits_absent (s : string) k :
  Dict.find (count_digits (list_ascii_of_string s) []) k = None ->
  occurrences k s = 0.
Proof.
  rewrite count_digits_find. unfold occurrences.
  destruct (count_occ _ _ _); simpl; intros; simplify_eq; lia.
Qed.

Lemma count_digits_key_elem (s : string) k :
  k ∈ (count_digits (list_ascii_of_string s) []).*1 <->
  0 < occurrences k s.
Proof.
  set (d := count_digits (list_ascii_of_string s) []).
  assert (NoDup d.*1) as Hnd by (apply count_digits_keys_NoDup, NoDup_nil_2).
  split.
  - intros ([k' v] & -> & Hin)%list_elem_of_fmap. simpl.
    apply find_elem_of, count_digits_entry in Hin as [<- ?]; done.
  - intros Hpos. destruct (Dict.find d k) as [v|] eqn:Hf.
    + clear -Hf. induction d as [|[k' v'] d IH]; simplify_eq/=.
      rewrite ascii_eqb_decide in Hf. case_bool_decide; simplify_eq.
      * apply list_elem_of_here.
      * apply list_elem_of_further. by apply IH.
    + apply count_digits_absent in Hf. lia.
Qed.

(** *** The sum over the guess's dict *)

Lemma total_cons F x l : total F (x :: l) = F x + total F l.
Proof. reflexivity. Qed.

Lemma total_app F l1 l2 : total F (l1 ++ l2) = total F l1 + total F l2.
Proof.
  unfold total. induction l1 as [|x l1 IH]; simpl; [done|]. rewrite IH. lia.
Qed.

Lemma total_Permutation F l1 l2 : l1 ≡ₚ l2 -> total F l1 = total F l2.
Proof.
  unfold total. induction 1; simpl; lia.
Qed.

Lemma total_zero F l : Forall (fun x => F x = 0) l -> total F l = 0.
Proof.
  unfold total. induction 1 as [|x l Hx _ IH]; simpl; [done|]. lia.
Qed.

(** A sum over distinct keys may be taken over any larger duplicate-free
    list whose extra elements contribute nothing. *)
Lemma total_extend F l1 l2 :
  NoDup l1 -> NoDup l2 ->
  (forall x, x ∈ l1 -> x ∈ l2) ->
  (forall x, x ∈ l2 -> x ∉ l1 -> F x = 0) ->
  total F l1 = total F l2.
Proof.
  intros Hnd1 Hnd2 Hsub Hzero.
  destruct (submseteq_Permutation l1 l2) as [rest Hperm];
    [by apply NoDup_submseteq|].
  rewrite (total_Permutation F _ _ Hperm), total_app.
  rewrite Hperm in Hnd2. apply NoDup_app in Hnd2 as (_ & Hdisj & _).
  rewrite (total_zero F rest); [lia|].
  apply Forall_forall. intros x Hx. apply Hzero.
  - rewrite Hperm. apply elem_of_app. by right.
  - intros Hx1. by apply (Hdisj x).
Qed.

Lemma sum_common_total (secret guess : string) :
  forall (gd : Dict.t) (acc : Z),
    (forall k v, (k, v) ∈ gd -> v = occurrences k guess) ->
    sum_common (count_digits (list_ascii_of_string secret) []) gd acc
    = acc + total (fun k => Z.min (occurrences k secret)
                              (occurrences k guess)) gd.*1.
Proof.
  induction gd as [|[k v] gd IH]; intros acc Hgd.
  - unfold total. simpl. lia.
  - cbn [sum_common]. rewrite fmap_cons, total_cons. cbn [fst].
    rewrite IH by (intros; by apply Hgd, list_elem_of_further).
    rewrite (Hgd k v) by apply list_elem_of_here.
    pose proof (occurrences_nonneg k guess).
    destruct (Dict.find _ k) as [sv|] eqn:Hs.
    + apply count_digits_entry in Hs as [<- _]. lia.
    + apply count_digits_absent in Hs. rewrite Hs. lia.
Qed.

Lemma is_digit_decimal c : is_digit c = true -> c ∈ decimal_digits.
Proof.
  intros H. apply list_elem_of_In.
  destruct c as [[] [] [] [] [] [] [] []]; try discriminate H;
    vm_compute; tauto.
Qed.

Lemma NoDup_decimal_digits : NoDup decimal_digits.
Proof. apply (bool_decide_unpack _). vm_compute. exact I. Qed.

(** The digit count of the code is the specification's sum over the ten
    digit values as soon as the guess is made of decimal digits. *)
Lemma sum_common_spec (secret guess : string) :
  Forall (fun c => is_digit c = true) (list_ascii_of_string guess) ->
  sum_common (count_digits (list_ascii_of_string secret) [])
    (count_digits (list_ascii_of_string guess) []) 0
  = spec_correct_digits secret guess.
Proof.
  intros Hdigits.
  set (gd := count_digits (list_ascii_of_string guess) []).
  assert (NoDup gd.*1) as Hnd by (apply count_digits_keys_NoDup, NoDup_nil_2).
  rewrite (sum_common_total secret guess).
  2:{ intros k v Hin. by apply find_elem_of, count_digits_entry in Hin as [? _]. }
  rewrite Z.add_0_l. unfold spec_correct_digits.
  apply total_extend; [done|apply NoDup_decimal_digits| |].
  - intros x Hx%count_digits_key_elem. apply is_digit_decimal.
    rewrite Forall_forall in Hdigits. apply Hdigits.
    apply list_elem_of_In, (count_occ_In ascii_dec).
    unfold occurrences in Hx. lia.
  - intros x _ Hx. unfold gd in Hx. rewrite count_digits_key_elem in Hx.
    pose proof (occurrences_nonneg x guess).
    pose proof (occurrences_nonneg x secret). lia.
Qed.

End Scoring.

(** *** Bounds on the two counts *)

Section Bounds.

Lemma values_sum_set (d : Dict.t) (k : ascii) :
  values_sum (Dict.set d k (Dict.get d k 0 + 1)) = values_sum d + 1.
Proof.
  induction d as [|[k' v'] d IH]; simpl; [lia|].
  destruct (Ascii.eqb k' k); simpl; lia.
Qed.

Lemma values_sum_count_digits (l : list ascii) : forall d : Dict.t,
  values_sum (count_digits l d) = values_sum d + Z.of_nat (length l).
Proof.
  induction l as [|x l IH]; intros d; simpl; [lia|].
  rewrite IH, values_sum_set. lia.
Qed.

Lemma sum_common_bounds (sd : Dict.t) :
  (forall k s, Dict.find sd k = Some s -> 0 <= s) ->
  forall (gd : Dict.t) (acc : Z),
    Forall (fun kv => 0 <= kv.2) gd ->
    acc <= sum_common sd gd acc <= acc + values_sum gd.
Proof.
  intros Hsd.
  induction gd as [|[k v] gd IH]; intros acc Hgd; simpl; [lia|].
  apply Forall_cons in Hgd as [Hv Hgd]. simpl in Hv.
  destruct (Dict.find sd k) as [s|] eqn:Hs.
  - specialize (Hsd k s Hs). specialize (IH (acc + Z.min s v) Hgd). lia.
  - specialize (IH acc Hgd). lia.
Qed.

Lemma count_digits_values_nonneg (s : string) :
  Forall (fun kv => 0 <= kv.2) (count_digits (list_ascii_of_string s) []).
Proof.
  apply Forall_forall. intros [k v] Hin. simpl.
  apply find_elem_of, count_digits_entry in Hin as [_ ?]; [lia|].
  apply count_digits_keys_NoDup, NoDup_nil_2.
Qed.

Lemma count_positions_bounds (secret guess : string) (range : list nat) :
  forall acc r : Z,
    count_positions secret guess range acc = Ok r ->
    acc <= r <= acc + Z.of_nat (length range).
Proof.
  induction range as [|i range IH]; intros acc r; simpl.
  - intros [= <-]. lia.
  - unfold str_index.
    destruct (String.get i secret); simpl; [|discriminate].
    destruct (String.get i guess); simpl; [|discriminate].
    intros H%IH. destruct (Ascii.eqb _ _); lia.
Qed.

Lemma string_length_list (s : string) :
  length (list_ascii_of_string s) = String.length s.
Proof. induction s as [|c s IH]; simpl; congruence. Qed.

(** Whatever the secret, the counts lie within [0, 4] and within the
    length of the guess. *)
Lemma calculate_match_bounds (secret guess : string) (r : MatchResult) :
  calculate_match secret guess = Ok r ->
  0 <= correct_positions r <= 4
  /\ 0 <= correct_digits r <= Z.of_nat (String.length guess).
Proof.
  unfold calculate_match.
  destruct (count_positions secret guess _ 0) as [cp|] eqn:Hcp;
    simpl; [|discriminate].
  intros [= <-]. simpl.
  apply count_positions_bounds in Hcp. simpl in Hcp. split; [lia|].
  pose proof (sum_common_bounds
                (count_digits (list_ascii_of_string secret) [])) as Hb.
  specialize (Hb (fun k s H => Z.lt_le_incl _ _
                                 (proj2 (count_digits_entry secret k s H)))).
  specialize (Hb _ 0 (count_digits_values_nonneg guess)).
  rewrite values_sum_count_digits, string_length_list in Hb.
  simpl in Hb. lia.
Qed.

End Bounds.

(** ** Game life cycle *)

Arguments calculate_match : simpl never.

Ltac unfold_M :=
  unfold set_winner, fetch_game, store.get_game, assign,
    store.update_game, store.add_guess, store.create_game, store.delete_game,
    mbind, M_bind, mret, M_ret, raise, lift in *.

Section Services.

Implicit Types (st : Store) (game g : Game.t) (env : Env).

(** *** What each service does to the store *)

Lemma create_new_game_run env player_name st :
  create_new_game env player_name st
  = if name_length_ok player_name then
      let player :=
        {| Player.player_id := generate_player_id env;
           Player.name := player_name;
           Player.secret_number := None; Player.is_ready := false |} in
      let game :=
        {| Game.game_id := generate_game_id env; Game.player_1 := player;
           Game.player_2 := None; Game.current_turn := None;
           Game.status := WAITING; Game.winner_id := None;
           Game.guesses := []; Game.created_at := utcnow env;
           Game.turn_count := 0 |} in
      ({| games_db := <[generate_game_id env := game]> (games_db st);
          game_guesses_db :=
            <[generate_game_id env := []]> (game_guesses_db st) |},
       Ok (game, generate_player_id env))
    else (st, Raise ValidationError).
Proof.
  unfold create_new_game, Player.new, name_length_ok. unfold_M.
  destruct (_ && _); done.
Qed.

Lemma join_game_run env game_id player_name st :
  join_game env game_id player_name st
  = match games_db st !! game_id with
    | None => (st, Raise GameNotFoundError)
    | Some game =>
        if bool_decide (Game.player_2 game ≠ None)
        then (st, Raise GameFullError)
        else if bool_decide (Game.status game = COMPLETED)
        then (st, Raise GameAlreadyCompletedError)
        else if name_length_ok player_name then
          let player :=
            {| Player.player_id := generate_player_id env;
               Player.name := player_name;
               Player.secret_number := None; Player.is_ready := false |} in
          (put game_id (Game.set_player_2 game (Some player)) st,
           Ok (Game.set_player_2 game (Some player),
               generate_player_id env))
        else (st, Raise ValidationError)
    end.
Proof.
  unfold join_game, Player.new, name_length_ok. unfold_M. cbn.
  destruct (games_db st !! game_id) as [game|]; [|done].
  repeat (case_bool_decide; [done|]).
  destruct (_ && _); done.
Qed.

Lemma lock_player_number_run game_id player_id secret_number st :
  lock_player_number game_id player_id secret_number st
  = match games_db st !! game_id with
    | None => (st, Raise GameNotFoundError)
    | Some game =>
        if bool_decide (Game.status game = COMPLETED)
        then (st, Raise GameAlreadyCompletedError)
        else
          match lock_slot game player_id secret_number with
          | Raise e => (st, Raise e)
          | Ok game =>
              (put game_id (start_if_ready game) st,
               Ok (start_if_ready game))
          end
    end.
Proof.
  unfold lock_player_number. unfold_M. cbn.
  destruct (games_db st !! game_id) as [game|]; [|done].
  case_bool_decide; [done|].
  destruct (lock_slot game player_id secret_number) as [game1|]; [|done].
  cbn. unfold put. rewrite !insert_insert_eq. done.
Qed.

Lemma delete_game_by_id_run game_id st :
  delete_game_by_id game_id st
  = match games_db st !! game_id with
    | None => (st, Raise GameNotFoundError)
    | Some _ =>
        ({| games_db := delete game_id (games_db st);
            game_guesses_db := delete game_id (game_guesses_db st) |},
         Ok true)
    end.
Proof.
  unfold delete_game_by_id. unfold_M. cbn.
  destruct (games_db st !! game_id) as [game|] eqn:Hg; cbn; [|done].
  by rewrite Hg.
Qed.

Lemma process_guess_Ok env game_id player_id guessed_number st st' r :
  process_guess env game_id player_id guessed_number st = (st', Ok r) ->
  exists (game : Game.t) (opponent : Player.t) (secret : string)
         (m : MatchResult) (game' : Game.t),
    games_db st !! game_id = Some game
    /\ Game.status game = IN_PROGRESS
    /\ Game.current_turn game = Some player_id
    /\ is_Some (find_player game player_id)
    /\ get_opponent game player_id = Some opponent
    /\ Player.secret_number opponent = Some secret
    /\ calculate_match secret guessed_number = Ok m
    /\ Guess.constraints (correct_digits m) (correct_positions m)
         (Game.turn_count game + 1) = true
    /\ let guess := guess_of env game_id player_id guessed_number opponent m
                      (Game.turn_count game + 1) in
       (if check_winner (correct_positions m)
        then game' = won (recorded game guess) player_id
        else switch_turn (recorded game guess) = Ok game')
       /\ st' = put game_id game' (fst (store.add_guess guess st))
       /\ r = {| GuessResult.guess_id := generate_guess_id env;
                 GuessResult.guessed_number := guessed_number;
                 GuessResult.correct_digits := correct_digits m;
                 GuessResult.correct_positions := correct_positions m;
                 GuessResult.is_winner := check_winner (correct_positions m);
                 GuessResult.next_turn :=
                   if check_winner (correct_positions m) then None
                   else Game.current_turn game';
                 GuessResult.winner_id :=
                   if check_winner (correct_positions m)
                   then Some player_id else None;
                 GuessResult.turn_number := Game.turn_count game + 1 |}.
Proof.
  unfold process_guess. unfold_M. cbn.
  destruct (games_db st !! game_id) as [game|] eqn:Hgame; [|done].
  repeat (case_bool_decide; [done|]).
  destruct (negb _ && negb _) eqn:Hin; [done|].
  destruct (negb (validate_turn _ _)) eqn:Hturn; [done|].
  destruct (get_opponent game player_id) as [opponent|] eqn:Hopp;
    cbn; [|done].
  destruct (Player.secret_number opponent) as [secret|] eqn:Hsec;
    cbn; [|done].
  destruct (calculate_match secret guessed_number) as [m|] eqn:Hm;
    cbn; [|done].
  unfold Guess.new.
  destruct (Guess.constraints _ _ _) eqn:Hc; cbn; [|done].
  intros Hrun. exists game, opponent, secret, m.
  apply negb_false_iff, bool_decide_eq_true_1 in Hturn.
  assert (Game.status game = IN_PROGRESS) by (by destruct (Game.status game)).
  assert (is_Some (find_player game player_id)).
  { unfold find_player.
    destruct (bool_decide (_ = player_id)); [by eexists|]. cbn in Hin.
    destruct (Game.player_2 game) as [p2|]; [|done].
    destruct (bool_decide (_ = player_id)); [by eexists|done]. }
  destruct (check_winner _) eqn:Hwin; cbn in Hrun.
  - eexists. split_and!; try done; simplify_eq;
      unfold put; cbn; rewrite ?insert_insert_eq; done.
  - destruct (switch_turn _) as [game3|] eqn:Hsw; cbn in Hrun; [|done].
    assert (Game.turn_count game3 = Game.turn_count game + 1) as Hcount.
    { unfold switch_turn in Hsw. repeat case_match; by simplify_eq. }
    exists game3. split_and!; try done; simplify_eq;
      unfold put; cbn; rewrite ?insert_insert_eq, ?Hcount; done.
Qed.

(** A call that raises leaves the store as it was, but for pydantic
    refusing the [Guess] after the turn counter has been incremented. *)
Lemma process_guess_Raise env game_id player_id guessed_number st st' e :
  process_guess env game_id player_id guessed_number st = (st', Raise e) ->
  st' = st
  \/ exists (game : Game.t) (opponent : Player.t) (secret : string)
            (m : MatchResult),
       games_db st !! game_id = Some game
       /\ Game.status game = IN_PROGRESS
       /\ get_opponent game player_id = Some opponent
       /\ Player.secret_number opponent = Some secret
       /\ calculate_match secret guessed_number = Ok m
       /\ Guess.constraints (correct_digits m) (correct_positions m)
            (Game.turn_count game + 1) = false
       /\ e = ValidationError
       /\ st' = {| games_db :=
                     <[game_id := Game.set_turn_count game
                                    (Game.turn_count game + 1)]>
                       (games_db st);
                   game_guesses_db := game_guesses_db st |}.
Proof.
  unfold process_guess. unfold_M. cbn.
  destruct (games_db st !! game_id) as [game|] eqn:Hgame; [|naive_solver].
  repeat (case_bool_decide; [naive_solver|]).
  destruct (negb _ && negb _) eqn:Hin; [naive_solver|].
  destruct (negb (validate_turn _ _)) eqn:Hturn; [naive_solver|].
  destruct (get_opponent game player_id) as [opponent|] eqn:Hopp;
    cbn; [|naive_solver].
  destruct (Player.secret_number opponent) as [secret|] eqn:Hsec;
    cbn; [|naive_solver].
  destruct (calculate_match secret guessed_number) as [m|] eqn:Hm;
    cbn; [|naive_solver].
  assert (Game.status game = IN_PROGRESS) by (by destruct (Game.status game)).
  unfold Guess.new.
  destruct (Guess.constraints _ _ _) eqn:Hc; cbn.
  2:{ intros [= <- <-]. right. exists game, opponent, secret, m. done. }
  destruct (check_winner _); cbn; [done|].
  destruct (switch_turn _) as [game3|] eqn:Hsw; cbn; [done|].
  (* [switch_turn] raises on an empty slot 2 only, where no opponent
     would have been found *)
  exfalso. unfold switch_turn, recorded in Hsw. cbn in Hsw.
  unfold get_opponent in Hopp.
  destruct (Game.player_2 game) eqn:Hp2; [repeat case_match; done|].
  cbn in Hin. rewrite andb_true_r in Hin. apply negb_false_iff in Hin.
  rewrite Hin in Hopp. done.
Qed.

End Services.

(** ** The invariant holds in every reachable store *)

Section Invariant.

Implicit Types (st : Store) (game g : Game.t) (env : Env).

Lemma lock_slot_Ok g player_id secret_number g1 :
  lock_slot g player_id secret_number = Ok g1 ->
  (Player.player_id (Game.player_1 g) = player_id
   /\ Player.is_ready (Game.player_1 g) = false
   /\ g1 = Game.set_player_1 g (Player.lock (Game.player_1 g) secret_number))
  \/ (exists p2, Game.player_2 g = Some p2
      /\ Player.player_id (Game.player_1 g) <> player_id
      /\ Player.player_id p2 = player_id
      /\ Player.is_ready p2 = false
      /\ g1 = Game.set_player_2 g (Some (Player.lock p2 secret_number))).
Proof.
  unfold lock_slot. intros H.
  repeat (case_match || case_bool_decide); simplify_eq; eauto 10.
Qed.

Lemma lock_slot_not_ready g player_id secret_number g1 :
  lock_slot g player_id secret_number = Ok g1 -> both_ready g = false.
Proof.
  unfold both_ready.
  intros [(_ & -> & _)|(p2 & -> & _ & _ & -> & _)]%lock_slot_Ok;
    [done|apply andb_false_r].
Qed.

Lemma store_inv_local st st' game_id :
  store_inv st ->
  (forall key, key <> game_id ->
     games_db st' !! key = games_db st !! key
     /\ game_guesses_db st' !! key = game_guesses_db st !! key) ->
  (forall g', games_db st' !! game_id = Some g' ->
     game_inv game_id g' (game_guesses_db st' !! game_id)) ->
  store_inv st'.
Proof.
  intros Hinv Hother Hthis key g Hg.
  destruct (decide (key = game_id)) as [->|Hne]; [by apply Hthis|].
  destruct (Hother key Hne) as [E1 E2]. rewrite E1 in Hg. rewrite E2.
  by apply Hinv.
Qed.

Lemma store_inv_put st game_id g' :
  store_inv st ->
  game_inv game_id g' (game_guesses_db st !! game_id) ->
  store_inv (put game_id g' st).
Proof.
  intros Hinv Hg'. pose proof (inv_key _ _ _ Hg') as Hkey.
  apply (store_inv_local st _ game_id Hinv); unfold put; cbn; rewrite Hkey.
  - intros key Hne. by rewrite !lookup_insert_ne.
  - intros g. rewrite lookup_insert_eq. by intros [= <-].
Qed.

Lemma store_inv_empty : store_inv empty_store.
Proof. intros key g. cbn. by rewrite lookup_empty. Qed.

Lemma create_new_game_inv env player_name st :
  store_inv st -> store_inv (fst (create_new_game env player_name st)).
Proof.
  intros Hinv. rewrite create_new_game_run.
  destruct (name_length_ok player_name); [|done]. cbn.
  apply (store_inv_local st _ (generate_game_id env) Hinv); cbn.
  - intros key Hne. by rewrite !lookup_insert_ne.
  - intros g. rewrite !lookup_insert_eq. intros [= <-].
    split; cbn; done.
Qed.

Lemma join_game_inv env game_id player_name st :
  store_inv st -> store_inv (fst (join_game env game_id player_name st)).
Proof.
  intros Hinv. rewrite join_game_run.
  destruct (games_db st !! game_id) as [g|] eqn:Hg; [|done].
  case_bool_decide as Hp2; [done|].
  case_bool_decide; [done|].
  destruct (name_length_ok player_name); [|done]. cbn.
  apply store_inv_put; [done|].
  destruct (Hinv game_id g Hg) as [? ? ? ? ? Hstarted].
  split; cbn; try done.
  intros Hs. apply Hstarted in Hs. unfold both_ready in Hs.
  by rewrite Hp2, andb_false_r in Hs.
Qed.

Lemma lock_player_number_inv game_id player_id secret_number st :
  store_inv st ->
  store_inv (fst (lock_player_number game_id player_id secret_number st)).
Proof.
  intros Hinv. rewrite lock_player_number_run.
  destruct (games_db st !! game_id) as [g|] eqn:Hg; [|done].
  case_bool_decide; [done|].
  destruct (lock_slot g player_id secret_number) as [g1|] eqn:Hlock;
    [|done].
  cbn. apply store_inv_put; [done|].
  destruct (Hinv game_id g Hg) as [? ? ? ? Hwaiting Hstarted].
  pose proof (lock_slot_not_ready _ _ _ _ Hlock) as Hnot.
  assert (Game.status g = WAITING) as Hw.
  { destruct (decide (Game.status g = WAITING)) as [|Hs]; [done|].
    apply Hstarted in Hs. congruence. }
  destruct (Hwaiting Hw) as [Hturn Hwinner].
  unfold start_if_ready.
  apply lock_slot_Ok in Hlock
    as [(_ & _ & ->)|(p2 & Hp2 & _ & _ & _ & ->)];
    match goal with
    | |- game_inv _ (if both_ready ?x then _ else _) _ =>
        destruct (both_ready x) eqn:Hboth
    end;
    split; cbn; try done; congruence.
Qed.

Lemma delete_game_by_id_inv game_id st :
  store_inv st -> store_inv (fst (delete_game_by_id game_id st)).
Proof.
  intros Hinv. rewrite delete_game_by_id_run.
  destruct (games_db st !! game_id) as [g|] eqn:Hg; [|done]. cbn.
  apply (store_inv_local st _ game_id Hinv); cbn.
  - intros key Hne. by rewrite !lookup_delete_ne.
  - intros g'. by rewrite lookup_delete_eq.
Qed.

Lemma switch_turn_Ok g g' :
  switch_turn g = Ok g' ->
  exists c, g' = Game.set_current_turn g (Some c).
Proof.
  unfold switch_turn. intros H. repeat case_match; simplify_eq; eauto.
Qed.

Lemma four_digits_length (s : string) :
  four_digits s = true -> String.length s = 4%nat.
Proof.
  unfold four_digits. intros [H _]%andb_true_iff.
  by apply bool_decide_eq_true_1 in H.
Qed.

(** With a guess of four digits pydantic accepts the [Guess] record. *)
Lemma constraints_hold secret guessed_number m (turn_count : Z) :
  String.length guessed_number = 4%nat ->
  calculate_match secret guessed_number = Ok m ->
  0 <= turn_count ->
  Guess.constraints (correct_digits m) (correct_positions m)
    (turn_count + 1) = true.
Proof.
  intros Hlen Hm%calculate_match_bounds Hturn. rewrite Hlen in Hm.
  unfold Guess.constraints.
  rewrite !andb_true_iff, !Z.leb_le. lia.
Qed.

Lemma recorded_inv game_id g guess (history : gmap string (list Guess.t)) :
  game_inv game_id g (history !! game_id) ->
  Game.status g = IN_PROGRESS ->
  Guess.turn_number guess = Game.turn_count g + 1 ->
  forall g' : Game.t,
    Game.game_id g' = Game.game_id g ->
    Game.player_1 g' = Game.player_1 g ->
    Game.player_2 g' = Game.player_2 g ->
    Game.guesses g' = Game.guesses g ++ [guess] ->
    Game.turn_count g' = Game.turn_count g + 1 ->
    Game.status g' <> WAITING ->
    game_inv game_id g'
      (<[game_id := default [] (history !! game_id) ++ [guess]]> history
         !! game_id).
Proof.
  intros [Hkey Hcount Hnum Hhist _ Hstarted] Hs Hturn g' E1 E2 E3 E4 E5 E6.
  split.
  - congruence.
  - rewrite E5, E4, length_app, Hcount. cbn. lia.
  - intros i x. rewrite E4. intros Hx.
    apply lookup_app_Some in Hx as [Hx|[Hi Hx]]; [by apply Hnum|].
    apply list_lookup_singleton_Some in Hx as [Hi0 <-].
    rewrite Hturn, Hcount. lia.
  - rewrite lookup_insert_eq, Hhist, E4. done.
  - done.
  - intros _. unfold both_ready. rewrite E2, E3.
    apply Hstarted. by rewrite Hs.
Qed.

Lemma process_guess_inv env game_id player_id guessed_number st :
  four_digits guessed_number = true ->
  store_inv st ->
  store_inv (fst (process_guess env game_id player_id guessed_number st)).
Proof.
  intros Hfour Hinv.
  destruct (process_guess env game_id player_id guessed_number st)
    as [st' [r|e]] eqn:Hrun; cbn.
  - apply process_guess_Ok in Hrun
      as (g & opponent & secret & m & g' & Hg & Hs & _ & _ & _ & _ & _ & _
          & Hg' & -> & _).
    pose proof (Hinv game_id g Hg) as Hgi.
    pose proof (inv_key _ _ _ Hgi) as Hkey.
    set (guess := guess_of _ _ _ _ _ _ _) in *.
    assert (Game.game_id g' = game_id
            /\ game_inv game_id g'
                 (<[game_id := default [] (game_guesses_db st !! game_id)
                               ++ [guess]]> (game_guesses_db st)
                    !! game_id)) as [Hkey' Hgi'].
    { destruct (check_winner _).
      - subst g'. split; [done|].
        by apply (recorded_inv game_id g guess).
      - apply switch_turn_Ok in Hg' as [c ->]. split; [done|].
        apply (recorded_inv game_id g guess); try done. cbn. by rewrite Hs. }
    apply (store_inv_local st _ game_id Hinv); unfold put; cbn;
      rewrite Hkey'.
    + intros key Hne. by rewrite !lookup_insert_ne.
    + intros g0. rewrite (lookup_insert_eq (<[_:=_]> (games_db st))).
      by intros [= <-].
  - apply process_guess_Raise in Hrun
      as [->|(g & opponent & secret & m & Hg & _ & _ & _ & Hm & Hc & _)];
      [done|].
    rewrite (constraints_hold secret guessed_number) in Hc; try done.
    + by apply four_digits_length.
    + rewrite (inv_count _ _ _ (Hinv game_id g Hg)). lia.
Qed.

Lemma handle_inv env req st : store_inv st -> store_inv (handle env req st).
Proof.
  intros Hinv. unfold handle.
  destruct (schema_valid req) eqn:Hvalid; [|done].
  destruct req; cbn in *.
  - by apply create_new_game_inv.
  - by apply join_game_inv.
  - by apply lock_player_number_inv.
  - by apply process_guess_inv.
  - by apply delete_game_by_id_inv.
Qed.

Lemma reachable_inv st : reachable st -> store_inv st.
Proof.
  induction 1 as [|env req st _ IH];
    [apply store_inv_empty|by apply handle_inv].
Qed.

Lemma reachable_run trace st : reachable st -> reachable (run trace st).
Proof.
  revert st. induction trace as [|[env req] trace IH]; intros st Hst;
    cbn; [done|].
  apply IH. by constructor.
Qed.

End Invariant.

(** ** One request, seen from one game *)

Ltac unchanged Hg := cbn; rewrite Hg; intros [= <-]; constructor.

Section Steps.

Implicit Types (st : Store) (game g : Game.t) (env : Env).

Lemma lookup_put game_id g' st key :
  Game.game_id g' = game_id ->
  games_db (put game_id g' st) !! key
  = if decide (key = game_id) then Some g' else games_db st !! key.
Proof.
  intros <-. unfold put. cbn. rewrite insert_insert_eq.
  case_decide as Hkey; [subst; apply lookup_insert_eq|].
  by rewrite lookup_insert_ne.
Qed.

Lemma lookup_put_ref game_id g' st :
  games_db (put game_id g' st) !! game_id = Some g'.
Proof.
  unfold put. cbn.
  destruct (decide (Game.game_id g' = game_id)) as [->|Hne].
  - apply lookup_insert_eq.
  - rewrite lookup_insert_ne by done. apply lookup_insert_eq.
Qed.

(** A game that is in the store before and after a request has made one
    [game_step], provided the generator does not give the identifier of a
    stored game to a new one. *)
Lemma serve_game env req st key g g' :
  store_inv st ->
  games_db st !! generate_game_id env = None ->
  games_db st !! key = Some g ->
  games_db (serve env req st) !! key = Some g' ->
  game_step g g'.
Proof.
  intros Hinv Hfresh Hg.
  destruct req as [player_name|game_id player_name
                  |game_id player_id secret_number
                  |game_id player_id guessed_number|game_id]; cbn.
  - rewrite create_new_game_run.
    destruct (name_length_ok player_name); cbn.
    + rewrite lookup_insert_ne by congruence.
      unchanged Hg.
    + unchanged Hg.
  - rewrite join_game_run.
    destruct (games_db st !! game_id) as [g0|] eqn:Hg0;
      [|unchanged Hg].
    case_bool_decide as Hp2; [unchanged Hg|].
    case_bool_decide; [unchanged Hg|].
    destruct (name_length_ok player_name);
      [|unchanged Hg].
    cbn [fst]. rewrite lookup_put by apply (inv_key _ _ _ (Hinv _ _ Hg0)).
    case_decide; simplify_eq.
    + intros [= <-]. by constructor.
    + unchanged Hg.
  - rewrite lock_player_number_run.
    destruct (games_db st !! game_id) as [g0|] eqn:Hg0;
      [|unchanged Hg].
    case_bool_decide; [unchanged Hg|].
    destruct (lock_slot g0 player_id secret_number) as [g1|] eqn:Hlock;
      [|unchanged Hg].
    cbn [fst]. rewrite lookup_put.
    2:{ rewrite <-(inv_key _ _ _ (Hinv _ _ Hg0)). unfold start_if_ready.
        apply lock_slot_Ok in Hlock as [(_ & _ & ->)|(? & _ & _ & _ & _ & ->)];
          by destruct (both_ready _). }
    case_decide; simplify_eq.
    + intros [= <-]. by econstructor.
    + unchanged Hg.
  - destruct (process_guess env game_id player_id guessed_number st)
      as [st' [r|e]] eqn:Hrun; cbn.
    + apply process_guess_Ok in Hrun
        as (g0 & opponent & secret & m & g1 & Hg0 & Hs & _ & _ & _ & _ & _
            & _ & Hg1 & -> & _).
      pose proof (inv_key _ _ _ (Hinv _ _ Hg0)) as Hkey.
      rewrite lookup_put.
      2:{ destruct (check_winner _); [by subst g1|].
          by apply switch_turn_Ok in Hg1 as [c ->]. }
      cbn. case_decide; simplify_eq.
      * intros [= <-]. destruct (check_winner _).
        -- subst g1. by constructor.
        -- apply switch_turn_Ok in Hg1 as [c ->]. by constructor.
      * unchanged Hg.
    + apply process_guess_Raise in Hrun
        as [->|(g0 & _ & _ & _ & Hg0 & Hs & _ & _ & _ & _ & _ & ->)];
        [unchanged Hg|].
      cbn. destruct (decide (key = game_id)) as [->|Hne].
      * rewrite lookup_insert_eq. intros [= <-]. simplify_eq.
        by constructor.
      * rewrite lookup_insert_ne by done.
        unchanged Hg.
  - rewrite delete_game_by_id_run.
    destruct (games_db st !! game_id) as [g0|] eqn:Hg0;
      [|unchanged Hg].
    cbn. destruct (decide (key = game_id)) as [->|Hne].
    + by rewrite lookup_delete_eq.
    + rewrite lookup_delete_ne by done.
      unchanged Hg.
Qed.

Lemma game_step_status g g' :
  game_step g g' ->
  status_rank (Game.status g) <= status_rank (Game.status g').
Proof.
  destruct 1 as [|p|player_id secret_number g1 Hs Hlock| | |]; cbn;
    try (destruct (Game.status g); cbn; lia).
  unfold start_if_ready.
  apply lock_slot_Ok in Hlock as [(_ & _ & ->)|(? & _ & _ & _ & _ & ->)];
    destruct (both_ready _); cbn; destruct (Game.status g); cbn; done.
Qed.

(** A slot that is ready keeps its player record, secret included. *)
Lemma game_step_secret g g' :
  game_step g g' ->
  (Player.is_ready (Game.player_1 g) = true ->
   Game.player_1 g' = Game.player_1 g)
  /\ (forall p2, Game.player_2 g = Some p2 -> Player.is_ready p2 = true ->
      Game.player_2 g' = Some p2).
Proof.
  destruct 1 as [|p Hp2|player_id secret_number g1 Hs Hlock| | |]; cbn;
    try done.
  - split; [done|]. intros p2. by rewrite Hp2.
  - unfold start_if_ready.
    apply lock_slot_Ok in Hlock
      as [(_ & Hr & ->)|(p2 & Hp2 & _ & _ & Hr & ->)];
      destruct (both_ready _); cbn; split; try done; try congruence;
      intros p2'; rewrite Hp2; intros [= <-]; congruence.
Qed.

(** The player that an identifier designates, once ready, is designated
    by it ever after, with the same secret. *)
Lemma game_step_find_player g g' player_id p :
  game_step g g' ->
  find_player g player_id = Some p ->
  Player.is_ready p = true ->
  find_player g' player_id = Some p.
Proof.
  destruct 1 as [|p' Hp2|player_id' secret_number g1 Hs Hlock| | |];
    try done.
  - unfold find_player. cbn. rewrite Hp2.
    case_bool_decide; [done|discriminate].
  - intros Hp Hready.
    assert (find_player g1 player_id = Some p) as Hp1.
    { unfold find_player in *.
      apply lock_slot_Ok in Hlock
        as [(Hid & Hr & ->)|(p2 & Hp2 & Hid & Hid2 & Hr & ->)]; cbn.
      - case_bool_decide; [simplify_eq; congruence|done].
      - case_bool_decide; [done|]. rewrite Hp2 in Hp.
        case_bool_decide; simplify_eq; congruence. }
    unfold start_if_ready. by destruct (both_ready g1).
Qed.

(** *** The exceptions of the services *)

Lemma count_positions_Raise secret guess range : forall acc e,
  count_positions secret guess range acc = Raise e -> e = IndexError.
Proof.
  induction range as [|i range IH]; intros acc e; cbn; [done|].
  unfold str_index.
  destruct (String.get i secret); cbn; [|by intros [= <-]].
  destruct (String.get i guess); cbn; [|by intros [= <-]].
  apply IH.
Qed.

Lemma calculate_match_Raise secret guess e :
  calculate_match secret guess = Raise e -> e = IndexError.
Proof.
  unfold calculate_match.
  destruct (count_positions secret guess _ 0) eqn:Hcp; cbn; [done|].
  intros [= <-]. by apply count_positions_Raise in Hcp.
Qed.

Lemma lock_player_number_no_format_error game_id player_id secret_number st :
  snd (lock_player_number game_id player_id secret_number st)
  <> Raise InvalidNumberFormatError.
Proof.
  rewrite lock_player_number_run. unfold lock_slot.
  repeat (case_match || case_bool_decide); simplify_eq; done.
Qed.

Lemma process_guess_no_format_error env game_id player_id guessed_number st :
  snd (process_guess env game_id player_id guessed_number st)
  <> Raise InvalidNumberFormatError.
Proof.
  unfold process_guess. unfold_M. cbn.
  destruct (games_db st !! game_id) as [game|]; [|done].
  repeat (case_bool_decide; [done|]).
  destruct (negb _ && negb _); [done|].
  destruct (negb (validate_turn _ _)); [done|].
  destruct (get_opponent game player_id) as [opponent|]; cbn; [|done].
  destruct (Player.secret_number opponent) as [secret|]; cbn; [|done].
  destruct (calculate_match secret guessed_number) as [m|e] eqn:Hm; cbn.
  2:{ by apply calculate_match_Raise in Hm as ->. }
  unfold Guess.new. destruct (Guess.constraints _ _ _); cbn; [|done].
  destruct (check_winner _); cbn; [done|].
  destruct (switch_turn _) as [game3|e] eqn:Hsw; cbn; [done|].
  unfold switch_turn in Hsw.
  repeat (case_match || case_bool_decide); by simplify_eq.
Qed.

End Steps.

(** * The claims *)

(** ** Scoring *)

(** C3. For every pair of 4-digit strings, [calculate_match] returns as
    [correct_positions] the number of indices [i] in [0,4) with
    [secret[i] = guess[i]], and as [correct_digits] the sum over the ten
    decimal digit values of the smaller of the digit's occurrence counts in
    the secret and in the guess. *)
Theorem calculate_match_spec (secret guess : string) :
  four_digits secret = true ->
  four_digits guess = true ->
  calculate_match secret guess
  = Ok {| correct_digits := spec_correct_digits secret guess;
          correct_positions := spec_correct_positions secret guess |}.
Proof.
  intros Hs Hg. unfold calculate_match.
  rewrite count_positions_filter.
  - cbn. rewrite sum_common_spec; [done|].
    apply four_digits_shape in Hg as (a & b & c & e & -> & Hdigits).
    exact Hdigits.
  - apply four_digits_in_bounds in Hs, Hg.
    rewrite Forall_forall in *. intros i Hi. split; eauto.
Qed.

(** Secret "1123" against guess "1111": two digits, two positions. *)
Lemma calculate_match_spec_witness :
  four_digits "1123" = true
  /\ four_digits "1111" = true
  /\ calculate_match "1123" "1111"
     = Ok {| correct_digits := spec_correct_digits "1123" "1111";
             correct_positions := spec_correct_positions "1123" "1111" |}
  /\ spec_correct_digits "1123" "1111" = 2
  /\ spec_correct_positions "1123" "1111" = 2.
Proof.
  split; [reflexivity|]. split; [reflexivity|]. split.
  - apply (calculate_match_spec "1123" "1111"); reflexivity.
  - split; reflexivity.
Defined.

(** C3, the worked example as the claim has it: "1123" and "1111" agree at
    indices 0 and 1, so the call gives [correct_positions = 2], not 1. *)
Lemma calculate_match_repeated_digits :
  four_digits "1123" = true
  /\ four_digits "1111" = true
  /\ calculate_match "1123" "1111"
     = Ok {| correct_digits := 2; correct_positions := 2 |}
  /\ calculate_match "1123" "1111"
     <> Ok {| correct_digits := 2; correct_positions := 1 |}.
Proof. repeat split; try reflexivity. discriminate. Qed.

(** C9. On two strings of exactly four decimal digits [calculate_match]
    returns: each of the indices 0..3 it reads is in bounds in both strings,
    no exception is raised, and run as a service call it gives that same
    result in every store and leaves the store as it found it. *)
Theorem calculate_match_total (secret guess : string) :
  four_digits secret = true ->
  four_digits guess = true ->
  (forall i : nat, (i < 4)%nat ->
     exists a b : ascii, str_index secret i = Ok a /\ str_index guess i = Ok b)
  /\ exists r : MatchResult,
       calculate_match secret guess = Ok r
       /\ forall st : Store, lift (calculate_match secret guess) st = (st, Ok r).
Proof.
  intros Hs Hg. split.
  - apply four_digits_shape in Hs as (a1 & a2 & a3 & a4 & -> & _).
    apply four_digits_shape in Hg as (b1 & b2 & b3 & b4 & -> & _).
    intros i Hi.
    destruct i as [|[|[|[|i]]]]; [cbn; eauto..|lia].
  - apply four_digits_in_bounds in Hs, Hg.
    unfold calculate_match. rewrite count_positions_filter.
    + cbn. eexists. split; [reflexivity|]. intros st. reflexivity.
    + rewrite Forall_forall in *. intros i Hi. split; eauto.
Qed.

Lemma calculate_match_total_witness :
  four_digits "0000" = true
  /\ four_digits "1111" = true
  /\ (forall i : nat, (i < 4)%nat ->
        exists a b : ascii,
          str_index "0000" i = Ok a /\ str_index "1111" i = Ok b)
  /\ exists r : MatchResult,
       calculate_match "0000" "1111" = Ok r
       /\ forall st : Store, lift (calculate_match "0000" "1111") st = (st, Ok r).
Proof.
  split; [reflexivity|]. split; [reflexivity|].
  apply (calculate_match_total "0000" "1111"); reflexivity.
Defined.

(** ** Life cycle *)

Lemma reachable_half_locked : reachable half_locked.
Proof. apply reachable_run, reachable_empty. Qed.

Lemma reachable_started : reachable started.
Proof. apply reachable_run, reachable_half_locked. Qed.

Lemma reachable_completed : reachable completed.
Proof. apply reachable_run, reachable_started. Qed.

Lemma reachable_midgame : reachable midgame.
Proof. apply reachable_run, reachable_started. Qed.

(** C1. What the code does on a win: [set_winner] sets the winner and the
    status and leaves [current_turn] alone.  After every winning
    [process_guess] the stored game is COMPLETED with the guesser as winner
    and [current_turn] still holds the guesser's identifier, while the call
    itself answers [next_turn = None]. *)
Theorem winning_guess_keeps_current_turn (env : Env)
    (game_id player_id guessed_number : string) (st st' : Store)
    (r : GuessResult.t) :
  process_guess env game_id player_id guessed_number st = (st', Ok r) ->
  GuessResult.is_winner r = true ->
  exists g' : Game.t,
    games_db st' !! game_id = Some g'
    /\ Game.status g' = COMPLETED
    /\ Game.winner_id g' = Some player_id
    /\ Game.current_turn g' = Some player_id
    /\ GuessResult.next_turn r = None.
Proof.
  intros (g & opponent & secret & m & g' & Hg & Hs & Hturn & _ & _ & _ & _
          & _ & Hg' & -> & ->)%process_guess_Ok Hwin.
  cbn in Hwin. rewrite Hwin in *. subst g'.
  eexists. split; [apply lookup_put_ref|]. cbn. done.
Qed.

(** In the game of Alice and Bob, Alice's winning guess leaves a reachable
    store whose completed game still says it is Alice's turn. *)
Lemma winning_guess_keeps_current_turn_witness :
  reachable completed
  /\ exists (r : GuessResult.t) (g' : Game.t),
       process_guess alice_env "game_1" "player_a" "5678" started
       = (completed, Ok r)
       /\ GuessResult.is_winner r = true
       /\ games_db completed !! "game_1" = Some g'
       /\ Game.status g' = COMPLETED
       /\ Game.winner_id g' = Some "player_a"
       /\ Game.current_turn g' = Some "player_a"
       /\ GuessResult.next_turn r = None.
Proof.
  split; [exact reachable_completed|].
  pose (run := process_guess alice_env "game_1" "player_a" "5678" started).
  assert (Hrun : exists r, run = (completed, Ok r)
                           /\ GuessResult.is_winner r = true).
  { eexists. split; vm_compute; reflexivity. }
  destruct Hrun as (r & Hrun & Hwin). exists r.
  destruct (winning_guess_keeps_current_turn _ _ _ _ _ _ _ Hrun Hwin)
    as (g' & Hg' & Hs' & Hw' & Ht' & Hn').
  exists g'. exact (conj Hrun (conj Hwin (conj Hg' (conj Hs' (conj Hw'
                     (conj Ht' Hn')))))).
Defined.

(** C2. What the code does: [join_game] tests [player_2 is not None] before
    it tests the status, and a game cannot be COMPLETED without a second
    player.  In every reachable store, a [join_game] on a COMPLETED game
    raises [GameFullError] and leaves the store as it was. *)
Theorem join_completed_game_is_full (env : Env) (game_id player_name : string)
    (st : Store) (g : Game.t) :
  reachable st ->
  games_db st !! game_id = Some g ->
  Game.status g = COMPLETED ->
  join_game env game_id player_name st = (st, Raise GameFullError).
Proof.
  intros Hst%reachable_inv Hg Hs. rewrite join_game_run, Hg.
  pose proof (inv_started _ _ _ (Hst _ _ Hg)) as Hready.
  rewrite Hs in Hready. specialize (Hready ltac:(done)).
  unfold both_ready in Hready.
  destruct (Game.player_2 g) as [p2|]; [done|].
  by rewrite andb_false_r in Hready.
Qed.

Lemma join_completed_game_is_full_witness :
  reachable completed
  /\ exists g : Game.t,
       games_db completed !! "game_1" = Some g
       /\ Game.status g = COMPLETED
       /\ join_game bob_env "game_1" "Carol" completed
          = (completed, Raise GameFullError).
Proof.
  split; [exact reachable_completed|].
  assert (Hg : exists g, games_db completed !! "game_1" = Some g
                         /\ Game.status g = COMPLETED).
  { eexists. split; vm_compute; reflexivity. }
  destruct Hg as (g & Hg & Hs). exists g.
  split; [exact Hg|]. split; [exact Hs|].
  exact (join_completed_game_is_full bob_env "game_1" "Carol" completed g
           reachable_completed Hg Hs).
Defined.

(** C4. In a reachable store a [lock_player_number] that succeeds was made
    on a WAITING game with no current turn.  The game it leaves is
    IN_PROGRESS, with [current_turn] the identifier of player 1, exactly
    when both slots are then filled and ready; otherwise it is still WAITING
    with no current turn. *)
Theorem lock_number_auto_start (game_id player_id secret_number : string)
    (st st' : Store) (g' : Game.t) :
  reachable st ->
  lock_player_number game_id player_id secret_number st = (st', Ok g') ->
  exists g : Game.t,
    games_db st !! game_id = Some g
    /\ Game.status g = WAITING
    /\ Game.current_turn g = None
    /\ games_db st' !! game_id = Some g'
    /\ if both_ready g'
       then Game.status g' = IN_PROGRESS
            /\ Game.current_turn g'
               = Some (Player.player_id (Game.player_1 g'))
       else Game.status g' = WAITING /\ Game.current_turn g' = None.
Proof.
  intros Hst%reachable_inv. rewrite lock_player_number_run.
  destruct (games_db st !! game_id) as [g|] eqn:Hg; [|done].
  case_bool_decide; [done|].
  destruct (lock_slot g player_id secret_number) as [g1|] eqn:Hlock; [|done].
  intros [= <- <-]. exists g.
  destruct (Hst _ _ Hg) as [_ _ _ _ Hwaiting Hstarted].
  pose proof (lock_slot_not_ready _ _ _ _ Hlock) as Hnot.
  assert (Game.status g = WAITING) as Hw.
  { destruct (decide (Game.status g = WAITING)) as [|Hs]; [done|].
    apply Hstarted in Hs. congruence. }
  destruct (Hwaiting Hw) as [Hturn _].
  split_and!; try done; [apply lookup_put_ref|].
  assert (Game.status g1 = WAITING /\ Game.current_turn g1 = None)
    as [Hw1 Hturn1].
  { by apply lock_slot_Ok in Hlock
      as [(_ & _ & ->)|(p2 & Hp2 & _ & _ & _ & ->)]. }
  unfold start_if_ready.
  destruct (both_ready g1) eqn:Hboth.
  - replace (both_ready _) with (both_ready g1) by done.
    rewrite Hboth. done.
  - rewrite Hboth. done.
Qed.

(** Bob locks after Alice: the game starts and Alice is to move. *)
Lemma lock_number_auto_start_witness :
  reachable half_locked
  /\ exists g' g : Game.t,
       lock_player_number "game_1" "player_b" "5678" half_locked
       = (started, Ok g')
       /\ games_db half_locked !! "game_1" = Some g
       /\ Game.status g = WAITING
       /\ Game.current_turn g = None
       /\ games_db started !! "game_1" = Some g'
       /\ both_ready g' = true
       /\ if both_ready g'
          then Game.status g' = IN_PROGRESS
               /\ Game.current_turn g'
                  = Some (Player.player_id (Game.player_1 g'))
          else Game.status g' = WAITING /\ Game.current_turn g' = None.
Proof.
  split; [exact reachable_half_locked|].
  assert (Hrun : exists g',
            lock_player_number "game_1" "player_b" "5678" half_locked
            = (started, Ok g') /\ both_ready g' = true).
  { eexists. split; vm_compute; reflexivity. }
  destruct Hrun as (g' & Hrun & Hboth). exists g'.
  destruct (lock_number_auto_start _ _ _ _ _ _ reachable_half_locked Hrun)
    as (g & Hg & Hs & Ht & Hg' & Hafter).
  exists g. exact (conj Hrun (conj Hg (conj Hs (conj Ht (conj Hg'
                    (conj Hboth Hafter)))))).
Defined.

(** C5. Every [process_guess] that succeeds adds exactly one to the turn
    counter of the stored game, win or not; when the guess does not win,
    [current_turn] becomes the identifier of the other slot: player 2's
    after a guess by player 1, player 1's after a guess by player 2. *)
Theorem process_guess_turns (env : Env)
    (game_id player_id guessed_number : string) (st st' : Store)
    (r : GuessResult.t) :
  process_guess env game_id player_id guessed_number st = (st', Ok r) ->
  exists (g g' : Game.t) (p2 : Player.t),
    games_db st !! game_id = Some g
    /\ Game.player_2 g = Some p2
    /\ (player_id = Player.player_id (Game.player_1 g)
        \/ player_id = Player.player_id p2)
    /\ games_db st' !! game_id = Some g'
    /\ Game.turn_count g' = Game.turn_count g + 1
    /\ GuessResult.turn_number r = Game.turn_count g'
    /\ (GuessResult.is_winner r = false ->
        (player_id = Player.player_id (Game.player_1 g) ->
         Game.current_turn g' = Some (Player.player_id p2))
        /\ (player_id = Player.player_id p2 ->
            Game.current_turn g' = Some (Player.player_id (Game.player_1 g)))
        /\ GuessResult.next_turn r = Game.current_turn g').
Proof.
  intros (g & opponent & secret & m & g' & Hg & Hs & Hturn & [p Hp] & Hopp
          & _ & _ & _ & Hg' & -> & ->)%process_guess_Ok.
  assert (exists p2, Game.player_2 g = Some p2
                     /\ (player_id = Player.player_id (Game.player_1 g)
                         \/ player_id = Player.player_id p2))
    as (p2 & Hp2 & Hslot).
  { unfold find_player, get_opponent in *.
    case_bool_decide; [by eauto|].
    destruct (Game.player_2 g) as [p2|]; [|done].
    case_bool_decide; [by eauto|done]. }
  exists g, g', p2.
  split_and!; try done; [apply lookup_put_ref|..];
    cbn; destruct (check_winner _); try (by subst g'); try done.
  - unfold switch_turn in Hg'. by repeat case_match; simplify_eq.
  - unfold switch_turn in Hg'. by repeat case_match; simplify_eq.
  - intros _. unfold switch_turn, recorded in Hg'. cbn in Hg'.
    rewrite Hturn, Hp2 in Hg'.
    case_bool_decide as Hfirst; simplify_eq; cbn; split_and!; try done;
      congruence.
Qed.

(** Alice misses with "5670": one turn is counted and Bob is to move. *)
Lemma process_guess_turns_witness :
  exists (r : GuessResult.t) (st' : Store) (g g' : Game.t) (p2 : Player.t),
    process_guess alice_env "game_1" "player_a" "5670" started = (st', Ok r)
    /\ GuessResult.is_winner r = false
    /\ games_db started !! "game_1" = Some g
    /\ Game.player_2 g = Some p2
    /\ ("player_a" = Player.player_id (Game.player_1 g)
        \/ "player_a" = Player.player_id p2)
    /\ games_db st' !! "game_1" = Some g'
    /\ Game.turn_count g' = Game.turn_count g + 1
    /\ GuessResult.turn_number r = Game.turn_count g'
    /\ (GuessResult.is_winner r = false ->
        ("player_a" = Player.player_id (Game.player_1 g) ->
         Game.current_turn g' = Some (Player.player_id p2))
        /\ ("player_a" = Player.player_id p2 ->
            Game.current_turn g' = Some (Player.player_id (Game.player_1 g)))
        /\ GuessResult.next_turn r = Game.current_turn g').
Proof.
  assert (Hrun : exists r st',
            process_guess alice_env "game_1" "player_a" "5670" started
            = (st', Ok r) /\ GuessResult.is_winner r = false).
  { eexists _, _. split; vm_compute; reflexivity. }
  destruct Hrun as (r & st' & Hrun & Hmiss). exists r, st'.
  destruct (process_guess_turns _ _ _ _ _ _ _ Hrun) as (g & g' & p2 & Hall).
  exists g, g', p2. exact (conj Hrun (conj Hmiss Hall)).
Defined.

(** C6. A request never moves the status of a stored game backward along
    WAITING, IN_PROGRESS, COMPLETED; and once a game is COMPLETED, every
    [lock_player_number] and every [process_guess] on it raises
    [GameAlreadyCompletedError] without touching the store, and it is still
    COMPLETED after any request that leaves it in the store.  The generator
    is taken to give a new game an identifier that no stored game has. *)
Theorem status_never_goes_back (env : Env) (req : Request) (st : Store)
    (key : string) (g : Game.t) :
  reachable st ->
  games_db st !! generate_game_id env = None ->
  games_db st !! key = Some g ->
  (forall g' : Game.t,
     games_db (serve env req st) !! key = Some g' ->
     status_rank (Game.status g) <= status_rank (Game.status g'))
  /\ (Game.status g = COMPLETED ->
      (forall player_id secret_number : string,
         lock_player_number key player_id secret_number st
         = (st, Raise GameAlreadyCompletedError))
      /\ (forall player_id guessed_number : string,
            process_guess env key player_id guessed_number st
            = (st, Raise GameAlreadyCompletedError))
      /\ (forall g' : Game.t,
            games_db (serve env req st) !! key = Some g' ->
            Game.status g' = COMPLETED)).
Proof.
  intros Hst%reachable_inv Hfresh Hg.
  assert (forall g', games_db (serve env req st) !! key = Some g' ->
            status_rank (Game.status g) <= status_rank (Game.status g'))
    as Hmono.
  { intros g' Hg'. eapply game_step_status, serve_game; eassumption. }
  split; [exact Hmono|]. intros Hs. split_and!.
  - intros player_id secret_number.
    rewrite lock_player_number_run, Hg.
    by rewrite bool_decide_eq_true_2.
  - intros player_id guessed_number.
    unfold process_guess. unfold_M. cbn. rewrite Hg, Hs. done.
  - intros g' Hg'%Hmono. rewrite Hs in Hg'.
    destruct (Game.status g'); cbn in Hg'; [lia..|done].
Qed.

(** On the completed game of Alice and Bob, one more lock attempt. *)
Lemma status_never_goes_back_witness :
  reachable completed
  /\ games_db completed !! generate_game_id bob_env = None
  /\ exists g : Game.t,
       games_db completed !! "game_1" = Some g
       /\ Game.status g = COMPLETED
       /\ (forall g' : Game.t,
             games_db (serve bob_env
                         (LockNumberRequest "game_1" "player_a" "9999")
                         completed) !! "game_1" = Some g' ->
             status_rank (Game.status g) <= status_rank (Game.status g'))
       /\ (Game.status g = COMPLETED ->
           (forall player_id secret_number : string,
              lock_player_number "game_1" player_id secret_number completed
              = (completed, Raise GameAlreadyCompletedError))
           /\ (forall player_id guessed_number : string,
                 process_guess bob_env "game_1" player_id guessed_number
                   completed
                 = (completed, Raise GameAlreadyCompletedError))
           /\ (forall g' : Game.t,
                 games_db (serve bob_env
                             (LockNumberRequest "game_1" "player_a" "9999")
                             completed) !! "game_1" = Some g' ->
                 Game.status g' = COMPLETED)).
Proof.
  split; [exact reachable_completed|].
  assert (Hfresh : games_db completed !! generate_game_id bob_env = None)
    by (vm_compute; reflexivity).
  split; [exact Hfresh|].
  assert (Hg : exists g, games_db completed !! "game_1" = Some g
                         /\ Game.status g = COMPLETED).
  { eexists. split; vm_compute; reflexivity. }
  destruct Hg as (g & Hg & Hs). exists g.
  split; [exact Hg|]. split; [exact Hs|].
  exact (status_never_goes_back bob_env
           (LockNumberRequest "game_1" "player_a" "9999") completed "game_1" g
           reachable_completed Hfresh Hg).
Defined.

(** The requests of [reachable] go through their schemas.  Called directly
    with five characters, [process_guess] increments the counter of the
    stored game and is then stopped by pydantic on [correct_digits = 5]:
    no guess is recorded for the turn counted. *)
Example unchecked_guess_is_counted_not_recorded :
  let st := fst (lock_player_number "game_1" "player_b" "55555" half_locked) in
  let run := process_guess alice_env "game_1" "player_a" "55555" st in
  snd run = Raise ValidationError
  /\ (Game.turn_count <$> games_db (fst run) !! "game_1") = Some 1
  /\ (Game.guesses <$> games_db (fst run) !! "game_1") = Some [].
Proof. repeat split; vm_compute; reflexivity. Qed.

(** C7. In every reachable store the turn counter of a game is the number
    of its guesses, the guess at (1-based) place [i] of the sequence carries
    turn number [i], the history kept by [add_guess] is that same sequence,
    and a further [process_guess] that succeeds appends one guess stamped
    with the counter it has just incremented. *)
Theorem turn_count_is_guess_count (st : Store) (key : string) (g : Game.t) :
  reachable st ->
  games_db st !! key = Some g ->
  Game.turn_count g = Z.of_nat (length (Game.guesses g))
  /\ (forall (i : nat) (x : Guess.t),
        Game.guesses g !! i = Some x ->
        Guess.turn_number x = Z.of_nat i + 1)
  /\ game_guesses_db st !! key = Some (Game.guesses g)
  /\ (forall (env : Env) (player_id guessed_number : string) (st' : Store)
             (r : GuessResult.t),
        process_guess env key player_id guessed_number st = (st', Ok r) ->
        exists (g' : Game.t) (x : Guess.t),
          games_db st' !! key = Some g'
          /\ Game.guesses g' = Game.guesses g ++ [x]
          /\ Game.turn_count g' = Game.turn_count g + 1
          /\ Guess.turn_number x = Game.turn_count g').
Proof.
  intros Hst%reachable_inv Hg.
  destruct (Hst _ _ Hg) as [_ Hcount Hnum Hhist _ _].
  split_and!; try done.
  intros env player_id guessed_number st' r
    (g0 & opponent & secret & m & g' & Hg0 & _ & _ & _ & _ & _ & _ & _
     & Hg' & -> & _)%process_guess_Ok.
  simplify_eq. eexists g', _.
  split; [apply lookup_put_ref|].
  destruct (check_winner _).
  - subst g'. cbn. done.
  - apply switch_turn_Ok in Hg' as [c ->]. cbn. done.
Qed.

Lemma turn_count_is_guess_count_witness :
  reachable midgame
  /\ exists g : Game.t,
       games_db midgame !! "game_1" = Some g
       /\ Game.turn_count g = 1
       /\ Game.turn_count g = Z.of_nat (length (Game.guesses g))
       /\ (forall (i : nat) (x : Guess.t),
             Game.guesses g !! i = Some x ->
             Guess.turn_number x = Z.of_nat i + 1)
       /\ game_guesses_db midgame !! "game_1" = Some (Game.guesses g)
       /\ (forall (env : Env) (player_id guessed_number : string)
                  (st' : Store) (r : GuessResult.t),
             process_guess env "game_1" player_id guessed_number midgame
             = (st', Ok r) ->
             exists (g' : Game.t) (x : Guess.t),
               games_db st' !! "game_1" = Some g'
               /\ Game.guesses g' = Game.guesses g ++ [x]
               /\ Game.turn_count g' = Game.turn_count g + 1
               /\ Guess.turn_number x = Game.turn_count g').
Proof.
  split; [exact reachable_midgame|].
  assert (Hg : exists g, games_db midgame !! "game_1" = Some g
                         /\ Game.turn_count g = 1).
  { eexists. split; vm_compute; reflexivity. }
  destruct Hg as (g & Hg & Hone). exists g.
  split; [exact Hg|]. split; [exact Hone|].
  exact (turn_count_is_guess_count midgame "game_1" g
           reachable_midgame Hg).
Defined.

(** C8, as the claim has it, fails on a COMPLETED game: the status is
    tested before the slot, and the call on Alice's locked slot raises
    [GameAlreadyCompletedError], not [NumberAlreadyLockedError]. *)
Lemma lock_ready_slot_of_completed_game :
  reachable completed
  /\ (exists (g : Game.t) (p : Player.t),
        games_db completed !! "game_1" = Some g
        /\ find_player g "player_a" = Some p
        /\ Player.is_ready p = true)
  /\ lock_player_number "game_1" "player_a" "9999" completed
     = (completed, Raise GameAlreadyCompletedError)
  /\ lock_player_number "game_1" "player_a" "9999" completed
     <> (completed, Raise NumberAlreadyLockedError).
Proof.
  split; [exact reachable_completed|].
  split; [eexists _, _; repeat split; vm_compute; reflexivity|].
  assert (lock_player_number "game_1" "player_a" "9999" completed
          = (completed, Raise GameAlreadyCompletedError)) as Hrun
    by (vm_compute; reflexivity).
  split; [exact Hrun|]. rewrite Hrun. intros [=].
Qed.

(** C8, amended.  In a reachable store, a [lock_player_number] that names a
    slot already ready raises [NumberAlreadyLockedError] when the game is
    not COMPLETED (and [GameAlreadyCompletedError] when it is) and leaves
    the store untouched; and whatever request comes next, the identifier
    still designates the same player record, with the same secret and the
    flag set, as long as the game is in the store. *)
Theorem locked_secret_is_immutable (game_id player_id secret_number : string)
    (st : Store) (g : Game.t) (p : Player.t) :
  reachable st ->
  games_db st !! game_id = Some g ->
  find_player g player_id = Some p ->
  Player.is_ready p = true ->
  (Game.status g <> COMPLETED ->
   lock_player_number game_id player_id secret_number st
   = (st, Raise NumberAlreadyLockedError))
  /\ (Game.status g = COMPLETED ->
      lock_player_number game_id player_id secret_number st
      = (st, Raise GameAlreadyCompletedError))
  /\ (forall (env : Env) (req : Request) (g' : Game.t),
        games_db st !! generate_game_id env = None ->
        games_db (serve env req st) !! game_id = Some g' ->
        find_player g' player_id = Some p).
Proof.
  intros Hst%reachable_inv Hg Hp Hready. split_and!.
  - intros Hs. rewrite lock_player_number_run, Hg.
    rewrite bool_decide_eq_false_2 by done.
    unfold find_player in Hp. unfold lock_slot.
    case_bool_decide; simplify_eq; [by rewrite Hready|].
    destruct (Game.player_2 g) as [p2|]; [|done].
    case_bool_decide; simplify_eq. by rewrite Hready.
  - intros Hs. rewrite lock_player_number_run, Hg.
    by rewrite bool_decide_eq_true_2.
  - intros env req g' Hfresh Hg'.
    eapply game_step_find_player; [|eassumption..].
    eapply serve_game; eassumption.
Qed.

(** Alice, whose number is locked, tries to lock another one in the started
    game. *)
Lemma locked_secret_is_immutable_witness :
  reachable started
  /\ exists (g : Game.t) (p : Player.t),
       games_db started !! "game_1" = Some g
       /\ find_player g "player_a" = Some p
       /\ Player.is_ready p = true
       /\ Player.secret_number p = Some "1234"
       /\ Game.status g <> COMPLETED
       /\ lock_player_number "game_1" "player_a" "9999" started
          = (started, Raise NumberAlreadyLockedError)
       /\ (forall (env : Env) (req : Request) (g' : Game.t),
             games_db started !! generate_game_id env = None ->
             games_db (serve env req started) !! "game_1" = Some g' ->
             find_player g' "player_a" = Some p).
Proof.
  split; [exact reachable_started|].
  assert (Hg : exists g p,
            games_db started !! "game_1" = Some g
            /\ find_player g "player_a" = Some p
            /\ Player.is_ready p = true
            /\ Player.secret_number p = Some "1234"
            /\ Game.status g = IN_PROGRESS).
  { eexists _, _. repeat split; vm_compute; reflexivity. }
  destruct Hg as (g & p & Hg & Hp & Hready & Hsecret & Hs).
  assert (Game.status g <> COMPLETED) as Hnot by (rewrite Hs; discriminate).
  destruct (locked_secret_is_immutable "game_1" "player_a" "9999" started g p
              reachable_started Hg Hp Hready) as (Hlock & _ & Hkeep).
  exists g, p.
  exact (conj Hg (conj Hp (conj Hready (conj Hsecret (conj Hnot
           (conj (Hlock Hnot) Hkeep)))))).
Defined.

(** C10. The services check no number format.  On a game that is not
    COMPLETED, [lock_player_number] for a slot that is not ready succeeds
    with any string at all and stores that very string as the slot's
    secret; no service ever raises [InvalidNumberFormatError]; a string that
    is not four digits is stopped by the request schema, before the service
    is called. *)
Theorem lock_number_stores_any_string
    (game_id player_id secret_number : string) (st : Store) (g : Game.t)
    (p : Player.t) :
  games_db st !! game_id = Some g ->
  Game.status g <> COMPLETED ->
  find_player g player_id = Some p ->
  Player.is_ready p = false ->
  (exists g' : Game.t,
     lock_player_number game_id player_id secret_number st
     = (put game_id g' st, Ok g')
     /\ games_db (put game_id g' st) !! game_id = Some g'
     /\ find_player g' player_id = Some (Player.lock p secret_number)
     /\ Player.secret_number (Player.lock p secret_number)
        = Some secret_number)
  /\ (forall (env : Env) (game_id' player_id' number : string) (st0 : Store),
        snd (lock_player_number game_id' player_id' number st0)
        <> Raise InvalidNumberFormatError
        /\ snd (process_guess env game_id' player_id' number st0)
           <> Raise InvalidNumberFormatError
        /\ snd (create_new_game env number st0)
           <> Raise InvalidNumberFormatError
        /\ snd (join_game env game_id' number st0)
           <> Raise InvalidNumberFormatError
        /\ snd (delete_game_by_id game_id' st0)
           <> Raise InvalidNumberFormatError)
  /\ (forall env : Env,
        four_digits secret_number = false ->
        handle env (LockNumberRequest game_id player_id secret_number) st
        = st).
Proof.
  intros Hg Hs Hp Hready. split_and!.
  - rewrite lock_player_number_run, Hg.
    rewrite bool_decide_eq_false_2 by done.
    unfold find_player in Hp. unfold lock_slot.
    case_bool_decide as Hid; simplify_eq.
    + rewrite Hready. eexists. split; [reflexivity|].
      split; [apply lookup_put_ref|]. split; [|done].
      unfold start_if_ready, find_player.
      destruct (both_ready _); cbn; by rewrite bool_decide_eq_true_2.
    + destruct (Game.player_2 g) as [p2|] eqn:Hp2; [|done].
      case_bool_decide as Hid2; simplify_eq.
      rewrite Hready. eexists. split; [reflexivity|].
      split; [apply lookup_put_ref|]. split; [|done].
      unfold start_if_ready, find_player.
      destruct (both_ready _); cbn;
        rewrite bool_decide_eq_false_2 by done;
        by rewrite bool_decide_eq_true_2.
  - intros env game_id' player_id' number st0. split_and!.
    + apply lock_player_number_no_format_error.
    + apply process_guess_no_format_error.
    + rewrite create_new_game_run. by case_match.
    + rewrite join_game_run. by repeat (case_match || case_bool_decide).
    + rewrite delete_game_by_id_run. by case_match.
  - intros env Hbad. unfold handle. cbn. by rewrite Hbad.
Qed.

(** Bob's slot is free in [half_locked]; the service takes "12ab567". *)
Lemma lock_number_stores_any_string_witness :
  four_digits "12ab567" = false
  /\ exists (g : Game.t) (p : Player.t),
       games_db half_locked !! "game_1" = Some g
       /\ Game.status g <> COMPLETED
       /\ find_player g "player_b" = Some p
       /\ Player.is_ready p = false
       /\ (exists g' : Game.t,
             lock_player_number "game_1" "player_b" "12ab567" half_locked
             = (put "game_1" g' half_locked, Ok g')
             /\ games_db (put "game_1" g' half_locked) !! "game_1" = Some g'
             /\ find_player g' "player_b" = Some (Player.lock p "12ab567")
             /\ Player.secret_number (Player.lock p "12ab567")
                = Some "12ab567")
       /\ (forall env : Env,
             four_digits "12ab567" = false ->
             handle env (LockNumberRequest "game_1" "player_b" "12ab567")
               half_locked
             = half_locked).
Proof.
  split; [reflexivity|].
  assert (Hg : exists g p,
            games_db half_locked !! "game_1" = Some g
            /\ Game.status g = WAITING
            /\ find_player g "player_b" = Some p
            /\ Player.is_ready p = false).
  { eexists _, _. repeat split; vm_compute; reflexivity. }
  destruct Hg as (g & p & Hg & Hs & Hp & Hready).
  assert (Game.status g <> COMPLETED) as Hnot by (rewrite Hs; discriminate).
  destruct (lock_number_stores_any_string "game_1" "player_b" "12ab567"
              half_locked g p Hg Hnot Hp Hready) as (Hlock & _ & Hschema).
  exists g, p.
  exact (conj Hg (conj Hnot (conj Hp (conj Hready (conj Hlock Hschema))))).
Defined.

(** * Further properties *)

(** ** Scoring: exceptions, bounds, symmetry *)

Section MoreScoring.

Implicit Types (c k : ascii) (l : list ascii).

Lemma string_get_is_Some (s : string) : forall i : nat,
  is_Some (String.get i s) <-> (i < String.length s)%nat.
Proof.
  induction s as [|a s IH]; intros i; cbn.
  - split; [by intros [? ?]|lia].
  - destruct i as [|i]; [split; [lia|by eexists]|].
    rewrite IH. lia.
Qed.

Lemma count_positions_short (secret guess : string) (range : list nat) :
  Exists (fun i => (String.length secret <= i)%nat
                   \/ (String.length guess <= i)%nat) range ->
  forall acc : Z, count_positions secret guess range acc = Raise IndexError.
Proof.
  induction range as [|i range IH]; intros Hex acc; [by inversion Hex|].
  cbn. unfold str_index.
  destruct (String.get i secret) as [a|] eqn:Ha; cbn; [|done].
  destruct (String.get i guess) as [b|] eqn:Hb; cbn; [|done].
  apply IH. apply Exists_cons in Hex as [[Hi|Hi]|Hex]; [..|done]; exfalso.
  - assert (is_Some (String.get i secret)) as H%string_get_is_Some
      by (by eexists). lia.
  - assert (is_Some (String.get i guess)) as H%string_get_is_Some
      by (by eexists). lia.
Qed.

Lemma total_ext (F G : ascii -> Z) l :
  (forall x, x ∈ l -> F x = G x) -> total F l = total G l.
Proof.
  induction l as [|x l IH]; intros H; [done|].
  rewrite !total_cons, IH, (H x); [done|apply list_elem_of_here|].
  intros y Hy. by apply H, list_elem_of_further.
Qed.

Lemma total_mono (F G : ascii -> Z) l :
  (forall x, x ∈ l -> F x <= G x) -> total F l <= total G l.
Proof.
  induction l as [|x l IH]; intros H; [done|].
  rewrite !total_cons.
  assert (F x <= G x) by apply H, list_elem_of_here.
  assert (total F l <= total G l)
    by (apply IH; intros y Hy; by apply H, list_elem_of_further).
  lia.
Qed.

Lemma total_add (F G : ascii -> Z) l :
  total (fun x => F x + G x) l = total F l + total G l.
Proof.
  induction l as [|x l IH]; [done|]. rewrite !total_cons, IH. lia.
Qed.

Lemma total_indicator (a b : ascii) l :
  NoDup l -> b ∈ l ->
  total (fun c => if Ascii.eqb a c && Ascii.eqb b c then 1 else 0) l
  = if Ascii.eqb a b then 1 else 0.
Proof.
  induction l as [|x l IH]; intros Hnd Hb; [by apply elem_of_nil in Hb|].
  apply NoDup_cons in Hnd as [Hx Hnd]. rewrite total_cons.
  apply elem_of_cons in Hb as [->|Hb].
  - rewrite Ascii.eqb_refl, andb_true_r, total_zero; [lia|].
    apply Forall_forall. intros y Hy.
    destruct (Ascii.eqb_spec x y) as [->|]; [done|].
    by rewrite andb_false_r.
  - rewrite IH by done.
    destruct (Ascii.eqb_spec b x) as [->|]; [done|].
    rewrite andb_false_r. lia.
Qed.

Lemma matches_total (s g : list ascii) l :
  NoDup l -> (forall b, b ∈ g -> b ∈ l) ->
  total (fun c => matches_of c s g) l = matches s g.
Proof.
  intros Hnd. revert g.
  induction s as [|a s IH]; intros g Hg; cbn.
  - apply total_zero, Forall_forall. done.
  - destruct g as [|b g]; [apply total_zero, Forall_forall; done|].
    rewrite total_add, IH, total_indicator; try done.
    + apply Hg, list_elem_of_here.
    + intros y Hy. by apply Hg, list_elem_of_further.
Qed.

Lemma matches_of_bounds c (s g : list ascii) :
  0 <= matches_of c s g
  /\ matches_of c s g <= Z.of_nat (count_occ ascii_dec s c)
  /\ matches_of c s g <= Z.of_nat (count_occ ascii_dec g c).
Proof.
  revert g. induction s as [|a s IH]; intros g; cbn; [lia|].
  destruct g as [|b g]; [cbn; lia|].
  specialize (IH g). cbn.
  destruct (Ascii.eqb_spec a c) as [->|Ha], (Ascii.eqb_spec b c) as [->|Hb];
    cbn; repeat destruct (ascii_dec _ _); try congruence; lia.
Qed.

(** On two strings of four characters the position loop counts the places
    where the character lists agree. *)
Lemma count_positions_matches a1 a2 a3 a4 b1 b2 b3 b4 :
  count_positions (String a1 (String a2 (String a3 (String a4 EmptyString))))
    (String b1 (String b2 (String b3 (String b4 EmptyString))))
    [0; 1; 2; 3]%nat 0
  = Ok (matches [a1; a2; a3; a4] [b1; b2; b3; b4]).
Proof.
  cbn. destruct (Ascii.eqb a1 b1), (Ascii.eqb a2 b2), (Ascii.eqb a3 b3),
    (Ascii.eqb a4 b4); reflexivity.
Qed.

Lemma length_four (s : string) :
  String.length s = 4%nat ->
  exists a b c e : ascii,
    s = String a (String b (String c (String e EmptyString))).
Proof.
  destruct s as [|a [|b [|c [|e [|? ?]]]]]; try discriminate. eauto.
Qed.

Lemma digits_are_total (secret guess : string) :
  sum_common (count_digits (list_ascii_of_string secret) [])
    (count_digits (list_ascii_of_string guess) []) 0
  = total (fun k => Z.min (occurrences k secret) (occurrences k guess))
      (count_digits (list_ascii_of_string guess) []).*1.
Proof.
  rewrite (sum_common_total secret guess); [lia|].
  intros k v Hin. apply find_elem_of, count_digits_entry in Hin as [? _];
    [done|]. apply count_digits_keys_NoDup, NoDup_nil_2.
Qed.

Lemma list_ascii_app (s g : string) :
  list_ascii_of_string (String.append s g)
  = list_ascii_of_string s ++ list_ascii_of_string g.
Proof.
  induction s as [|a s IH]; [reflexivity|].
  change (String.append (String a s) g) with (String a (String.append s g)).
  cbn. by rewrite IH.
Qed.

Lemma occurrences_app k (s g : string) :
  occurrences k (String.append s g) = occurrences k s + occurrences k g.
Proof.
  unfold occurrences. rewrite list_ascii_app, count_occ_app. lia.
Qed.

(** The digit count does not depend on which string is the secret. *)
Lemma digits_symmetric (secret guess : string) :
  sum_common (count_digits (list_ascii_of_string secret) [])
    (count_digits (list_ascii_of_string guess) []) 0
  = sum_common (count_digits (list_ascii_of_string guess) [])
      (count_digits (list_ascii_of_string secret) []) 0.
Proof.
  rewrite !digits_are_total.
  set (F := fun k => Z.min (occurrences k secret) (occurrences k guess)).
  set (U := (count_digits
               (list_ascii_of_string (String.append secret guess)) []).*1).
  assert (NoDup U) by apply count_digits_keys_NoDup, NoDup_nil_2.
  assert (forall s x, x ∈ (count_digits (list_ascii_of_string s) []).*1 ->
                      0 < occurrences x s) as Hkey
    by (intros s x; apply count_digits_key_elem).
  assert (forall s x, 0 <= occurrences x s) as Hpos
    by (intros; apply occurrences_nonneg).
  transitivity (total F U).
  - apply total_extend;
      [apply count_digits_keys_NoDup, NoDup_nil_2|done|..].
    + intros x Hx%Hkey. apply count_digits_key_elem.
      rewrite occurrences_app. pose proof (Hpos secret x). lia.
    + intros x _ Hx. rewrite count_digits_key_elem in Hx. unfold F.
      pose proof (Hpos secret x). pose proof (Hpos guess x). lia.
  - symmetry.
    rewrite (total_ext (fun k => Z.min (occurrences k guess)
                                   (occurrences k secret)) F)
      by (intros; apply Z.min_comm).
    apply total_extend;
      [apply count_digits_keys_NoDup, NoDup_nil_2|done|..].
    + intros x Hx%Hkey. apply count_digits_key_elem.
      rewrite occurrences_app. pose proof (Hpos guess x). lia.
    + intros x _ Hx. rewrite count_digits_key_elem in Hx. unfold F.
      pose proof (Hpos secret x). pose proof (Hpos guess x). lia.
Qed.

Lemma positions_symmetric (secret guess : string) (range : list nat) :
  forall acc : Z,
    count_positions secret guess range acc
    = count_positions guess secret range acc.
Proof.
  induction range as [|i range IH]; intros acc; cbn; [done|].
  unfold str_index.
  destruct (String.get i secret) as [a|], (String.get i guess) as [b|];
    cbn; try done.
  rewrite IH. by rewrite (Ascii.eqb_sym a b).
Qed.

Lemma calculate_match_total_form (secret guess : string) :
  calculate_match secret guess
  = match count_positions secret guess [0; 1; 2; 3]%nat 0 with
    | Ok p =>
        Ok {| correct_digits :=
                total (fun k => Z.min (occurrences k secret)
                                  (occurrences k guess))
                  (count_digits (list_ascii_of_string guess) []).*1;
              correct_positions := p |}
    | Raise e => Raise e
    end.
Proof.
  unfold calculate_match.
  destruct (count_positions secret guess _ 0); cbn; [|done].
  by rewrite digits_are_total.
Qed.

(** On four characters each: the places that match are at most the digits
    that match, and all four places match only for equal strings. *)
Lemma four_chars_counts (secret guess : string) (m : MatchResult) :
  String.length secret = 4%nat ->
  String.length guess = 4%nat ->
  calculate_match secret guess = Ok m ->
  correct_positions m <= correct_digits m
  /\ (correct_positions m = 4 <-> secret = guess).
Proof.
  intros Hs Hg Hm.
  apply length_four in Hs as (a1 & a2 & a3 & a4 & ->).
  apply length_four in Hg as (b1 & b2 & b3 & b4 & ->).
  rewrite calculate_match_total_form, count_positions_matches in Hm.
  assert (Ok_inj : forall a b : MatchResult, Ok a = Ok b -> a = b)
    by congruence.
  apply Ok_inj in Hm. subst m. cbn [correct_positions correct_digits].
  split.
  - set (secret := String a1 _). set (guess := String b1 _).
    set (keys := (count_digits (list_ascii_of_string guess) []).*1).
    assert (NoDup keys) by apply count_digits_keys_NoDup, NoDup_nil_2.
    rewrite <-(matches_total [a1; a2; a3; a4] [b1; b2; b3; b4] keys);
      [|done|].
    + apply total_mono. intros c _.
      destruct (matches_of_bounds c [a1; a2; a3; a4] [b1; b2; b3; b4])
        as (_ & H1 & H2).
      unfold occurrences.
      change (list_ascii_of_string secret) with [a1; a2; a3; a4].
      change (list_ascii_of_string guess) with [b1; b2; b3; b4].
      lia.
    + intros b Hb. apply count_digits_key_elem. unfold occurrences.
      change (list_ascii_of_string guess) with [b1; b2; b3; b4].
      apply list_elem_of_In, (count_occ_In ascii_dec) in Hb. lia.
  - cbn [matches].
    destruct (Ascii.eqb_spec a1 b1), (Ascii.eqb_spec a2 b2),
      (Ascii.eqb_spec a3 b3), (Ascii.eqb_spec a4 b4);
      split; intros H; simplify_eq; done || lia.
Qed.

Lemma calculate_match_four_digits (secret guess : string) :
  four_digits secret = true ->
  four_digits guess = true ->
  exists m : MatchResult, calculate_match secret guess = Ok m.
Proof.
  intros Hs%four_digits_in_bounds Hg%four_digits_in_bounds.
  unfold calculate_match. rewrite count_positions_filter.
  - cbn. by eexists.
  - rewrite Forall_forall in *. intros i Hi. split; eauto.
Qed.

End MoreScoring.

(** X1. [calculate_match] returns exactly when both strings have at least
    four characters; on a shorter string it raises [IndexError], and it
    raises nothing else. *)
Theorem calculate_match_raises_iff_short (secret guess : string) :
  match calculate_match secret guess with
  | Ok _ => (4 <= String.length secret)%nat /\ (4 <= String.length guess)%nat
  | Raise e =>
      e = IndexError
      /\ ((String.length secret < 4)%nat \/ (String.length guess < 4)%nat)
  end.
Proof.
  unfold calculate_match.
  destruct (decide ((4 <= String.length secret)%nat
                    /\ (4 <= String.length guess)%nat)) as [[Hs Hg]|Hshort].
  - rewrite count_positions_filter; [done|].
    apply Forall_forall. intros i Hi.
    assert (i < 4)%nat.
    { repeat (apply elem_of_cons in Hi as [->|Hi]; [lia|]).
      by apply elem_of_nil in Hi. }
    split; apply string_get_is_Some; lia.
  - rewrite count_positions_short; [cbn; split; [done|lia]|].
    apply Exists_exists.
    destruct (decide (String.length secret < 4)%nat).
    + exists (String.length secret). split; [|lia].
      apply (list_elem_of_lookup_2 _ (String.length secret)).
      by destruct (String.length secret) as [|[|[|[|?]]]]; [..|lia].
    + exists (String.length guess). split; [|lia].
      apply (list_elem_of_lookup_2 _ (String.length guess)).
      by destruct (String.length guess) as [|[|[|[|?]]]]; [..|lia].
Qed.

(** X2. On two strings of four characters, whatever the characters, a place
    that matches is also a digit that matches:
    [0 <= correct_positions <= correct_digits <= 4]. *)
Theorem calculate_match_positions_le_digits (secret guess : string)
    (m : MatchResult) :
  String.length secret = 4%nat ->
  String.length guess = 4%nat ->
  calculate_match secret guess = Ok m ->
  0 <= correct_positions m <= correct_digits m /\ correct_digits m <= 4.
Proof.
  intros Hs Hg Hm.
  destruct (calculate_match_bounds _ _ _ Hm) as [Hp Hd]. rewrite Hg in Hd.
  destruct (four_chars_counts _ _ _ Hs Hg Hm) as [Hle _]. lia.
Qed.

Lemma calculate_match_positions_le_digits_witness :
  String.length "1234" = 4%nat
  /\ String.length "1325" = 4%nat
  /\ exists m : MatchResult,
       calculate_match "1234" "1325" = Ok m
       /\ correct_positions m = 1
       /\ correct_digits m = 3
       /\ 0 <= correct_positions m <= correct_digits m
       /\ correct_digits m <= 4.
Proof.
  split; [reflexivity|]. split; [reflexivity|].
  exists {| correct_digits := 3; correct_positions := 1 |}.
  split; [reflexivity|]. split; [reflexivity|]. split; [reflexivity|].
  exact (calculate_match_positions_le_digits "1234" "1325" _
           eq_refl eq_refl eq_refl).
Defined.

(** X3. On two strings of four characters the guess wins -- all four
    positions are reported correct -- exactly when it is the secret itself,
    and then all four digits are reported correct as well. *)
Theorem calculate_match_win_iff_equal (secret guess : string)
    (m : MatchResult) :
  String.length secret = 4%nat ->
  String.length guess = 4%nat ->
  calculate_match secret guess = Ok m ->
  (check_winner (correct_positions m) = true <-> secret = guess)
  /\ (secret = guess -> correct_digits m = 4).
Proof.
  intros Hs Hg Hm.
  destruct (calculate_match_bounds _ _ _ Hm) as [Hp Hd]. rewrite Hg in Hd.
  destruct (four_chars_counts _ _ _ Hs Hg Hm) as [Hle Hwin].
  unfold check_winner. rewrite bool_decide_eq_true.
  split; [done|]. intros Heq%Hwin. lia.
Qed.

Lemma calculate_match_win_iff_equal_witness :
  String.length "5678" = 4%nat
  /\ exists m : MatchResult,
       calculate_match "5678" "5678" = Ok m
       /\ (check_winner (correct_positions m) = true <-> "5678" = "5678")
       /\ ("5678" = "5678" -> correct_digits m = 4).
Proof.
  split; [reflexivity|].
  exists {| correct_digits := 4; correct_positions := 4 |}.
  split; [reflexivity|].
  exact (calculate_match_win_iff_equal "5678" "5678" _
           eq_refl eq_refl eq_refl).
Defined.

(** X4. [calculate_match] does not depend on which of the two strings is
    the secret: both counts, and the exception if there is one, are the
    same with the arguments exchanged; this for all strings. *)
Theorem calculate_match_symmetric (secret guess : string) :
  calculate_match secret guess = calculate_match guess secret.
Proof.
  unfold calculate_match.
  rewrite (positions_symmetric secret guess).
  destruct (count_positions guess secret _ 0); cbn; [|done].
  by rewrite digits_symmetric.
Qed.

(** ** The played-game invariant holds in every reachable store *)

Section PlayInvariant.

Implicit Types (st : Store) (g : Game.t) (env : Env).

Lemma store_play_inv_local st st' game_id :
  store_play_inv st ->
  (forall key, key <> game_id -> games_db st' !! key = games_db st !! key) ->
  (forall g', games_db st' !! game_id = Some g' -> play_inv game_id g') ->
  store_play_inv st'.
Proof.
  intros Hinv Hother Hthis key g Hg.
  destruct (decide (key = game_id)) as [->|Hne]; [by apply Hthis|].
  rewrite (Hother key Hne) in Hg. by apply Hinv.
Qed.

Lemma store_play_inv_put st game_id g' hist :
  store_play_inv st ->
  Game.game_id g' = game_id ->
  play_inv game_id g' ->
  store_play_inv
    {| games_db := games_db (put game_id g' st); game_guesses_db := hist |}.
Proof.
  intros Hinv Hkey Hg'.
  apply (store_play_inv_local st _ game_id Hinv); cbn; rewrite Hkey.
  - intros key Hne. by rewrite !lookup_insert_ne.
  - intros g. rewrite lookup_insert_eq. by intros [= <-].
Qed.

Lemma slot_ok_lock (p : Player.t) (s : string) :
  four_digits s = true -> slot_ok (Player.lock p s).
Proof. intros Hs. unfold slot_ok. cbn. eauto. Qed.

Lemma even_succ (n : Z) : Z.even (n + 1) = negb (Z.even n).
Proof. rewrite Z.even_add. by destruct (Z.even n). Qed.

Lemma create_new_game_play_inv env player_name st :
  store_play_inv st ->
  store_play_inv (fst (create_new_game env player_name st)).
Proof.
  intros Hinv. rewrite create_new_game_run.
  destruct (name_length_ok player_name); [|done]. cbn.
  apply (store_play_inv_local st _ (generate_game_id env) Hinv); cbn.
  - intros key Hne. by rewrite lookup_insert_ne.
  - intros g. rewrite lookup_insert_eq. intros [= <-].
    split; cbn; try done.
Qed.

Lemma join_game_play_inv env game_id player_name st :
  store_inv st -> store_play_inv st ->
  store_play_inv (fst (join_game env game_id player_name st)).
Proof.
  intros Hinv Hplay. rewrite join_game_run.
  destruct (games_db st !! game_id) as [g|] eqn:Hg; [|done].
  case_bool_decide as Hp2; [done|].
  case_bool_decide; [done|].
  destruct (name_length_ok player_name); [|done]. cbn.
  destruct (Hinv _ _ Hg) as [Hkey _ _ _ _ Hstarted].
  destruct (Hplay _ _ Hg) as [Hs1 _ Hwait _ Hopen _ _].
  assert (Game.status g = WAITING) as Hw.
  { destruct (decide (Game.status g = WAITING)) as [|Hs]; [done|].
    apply Hstarted in Hs. unfold both_ready in Hs.
    by rewrite Hp2, andb_false_r in Hs. }
  apply (store_play_inv_put st game_id _ (game_guesses_db st)); [done..|].
  split; cbn; try done.
  - intros p2 [= <-]. done.
  - by rewrite Hw.
  - intros i x. by rewrite (Hwait Hw).
Qed.

Lemma lock_player_number_play_inv game_id player_id secret_number st :
  four_digits secret_number = true ->
  store_inv st -> store_play_inv st ->
  store_play_inv
    (fst (lock_player_number game_id player_id secret_number st)).
Proof.
  intros Hfour Hinv Hplay. rewrite lock_player_number_run.
  destruct (games_db st !! game_id) as [g|] eqn:Hg; [|done].
  case_bool_decide; [done|].
  destruct (lock_slot g player_id secret_number) as [g1|] eqn:Hlock; [|done].
  cbn.
  destruct (Hinv _ _ Hg) as [Hkey Hcount _ _ _ Hstarted].
  destruct (Hplay _ _ Hg) as [Hs1 Hs2 Hwait _ Hopen _ _].
  pose proof (lock_slot_not_ready _ _ _ _ Hlock) as Hnot.
  assert (Game.status g = WAITING) as Hw.
  { destruct (decide (Game.status g = WAITING)) as [|Hs]; [done|].
    apply Hstarted in Hs. congruence. }
  specialize (Hwait Hw).
  destruct Hopen as [Hwinner _]; [by rewrite Hw|].
  assert (Game.turn_count g = 0) as Hzero by (by rewrite Hcount, Hwait).
  assert (play_inv game_id g1 /\ Game.game_id g1 = game_id
          /\ Game.status g1 = WAITING /\ Game.turn_count g1 = 0
          /\ Game.guesses g1 = [] /\ Game.winner_id g1 = None)
    as (Hg1 & Hkey1 & Hw1 & Hzero1 & Hnone1 & Hwinner1).
  { apply lock_slot_Ok in Hlock
      as [(Hid & Hr & ->)|(p2 & Hp2 & Hid & Hid2 & Hr & ->)];
      (split; [|done]); split; cbn; rewrite ?Hw, ?Hwait; try done.
    - eauto.
    - intros p2' [= <-]. split; [by apply slot_ok_lock|]. cbn. congruence. }
  apply (store_play_inv_put st game_id _ (game_guesses_db st)); [done|..].
  - unfold start_if_ready. by destruct (both_ready g1).
  - unfold start_if_ready. destruct (both_ready g1) eqn:Hboth; [|done].
    destruct Hg1 as [Hs1' Hs2' _ _ _ _ _].
    split; cbn; rewrite ?Hnone1; try done.
    + intros _. unfold both_ready in Hboth.
      destruct (Game.player_2 g1) as [p2|]; [|by rewrite andb_false_r in Hboth].
      exists p2. by rewrite Hzero1.
Qed.

Lemma delete_game_by_id_play_inv game_id st :
  store_play_inv st -> store_play_inv (fst (delete_game_by_id game_id st)).
Proof.
  intros Hinv. rewrite delete_game_by_id_run.
  destruct (games_db st !! game_id) as [g|] eqn:Hg; [|done]. cbn.
  apply (store_play_inv_local st _ game_id Hinv); cbn.
  - intros key Hne. by rewrite lookup_delete_ne.
  - intros g'. by rewrite lookup_delete_eq.
Qed.

Lemma store_play_inv_games st st' game_id g' :
  store_play_inv st ->
  Game.game_id g' = game_id ->
  play_inv game_id g' ->
  games_db st' = games_db (put game_id g' st) ->
  store_play_inv st'.
Proof.
  intros Hinv Hkey Hg' Hdb.
  apply (store_play_inv_local st _ game_id Hinv); rewrite Hdb.
  - intros key Hne. rewrite lookup_put by done. by rewrite decide_False.
  - intros g. rewrite lookup_put by done. rewrite decide_True by done.
    by intros [= <-].
Qed.

(** The game after one more guess [x] by the player to move. *)
Lemma play_inv_guess key g p2 (x : Guess.t) (s : string) g' :
  play_inv key g ->
  Game.status g = IN_PROGRESS ->
  Game.player_2 g = Some p2 ->
  Game.turn_count g = Z.of_nat (length (Game.guesses g)) ->
  Guess.game_id x = key ->
  Guess.guesser_player_id x
  = Player.player_id (mover g p2 (Game.turn_count g)) ->
  Guess.target_player_id x
  = Player.player_id (waiter g p2 (Game.turn_count g)) ->
  four_digits (Guess.guessed_number x) = true ->
  Player.secret_number (waiter g p2 (Game.turn_count g)) = Some s ->
  calculate_match s (Guess.guessed_number x)
  = Ok {| correct_digits := Guess.correct_digits x;
          correct_positions := Guess.correct_positions x |} ->
  Game.player_1 g' = Game.player_1 g ->
  Game.player_2 g' = Game.player_2 g ->
  Game.guesses g' = Game.guesses g ++ [x] ->
  Game.turn_count g' = Game.turn_count g + 1 ->
  (if bool_decide (Guess.correct_positions x = 4)
   then Game.status g' = COMPLETED
        /\ Game.winner_id g' = Some (Guess.guesser_player_id x)
   else Game.status g' = IN_PROGRESS
        /\ Game.winner_id g' = None
        /\ Game.current_turn g'
           = Some (Player.player_id (mover g p2 (Game.turn_count g + 1)))) ->
  play_inv key g'.
Proof.
  intros [Hs1 Hs2 _ _ Hopen _ Hguesses] Hs Hp2 Hcount Xkey Xguesser Xtarget
    Xfour Xsecret Xmatch E1 E2 E3 E4 Hcase.
  destruct Hopen as [_ Hold]; [by rewrite Hs|].
  split.
  - by rewrite E1.
  - rewrite E1, E2. apply Hs2.
  - intros Hw. case_bool_decide; destruct Hcase as [Hs' _]; congruence.
  - intros Hi. case_bool_decide; [destruct Hcase; congruence|].
    destruct Hcase as (_ & _ & Hcur).
    exists p2. split; [congruence|].
    unfold mover in *. by rewrite E1, E4.
  - intros Hopen. case_bool_decide; [by destruct Hcase|].
    destruct Hcase as (_ & Hw & _). split; [done|].
    rewrite E3. apply Forall_app. split; [done|].
    by apply Forall_singleton.
  - intros Hdone. case_bool_decide; [|destruct Hcase; congruence].
    destruct Hcase as [_ Hw]. by exists (Game.guesses g), x.
  - intros i y. rewrite E3. intros Hy.
    apply lookup_app_Some in Hy as [Hy|[Hi Hy]].
    + destruct (Hguesses i y Hy) as (p2' & s' & Hp2' & ?).
      exists p2', s'. unfold mover, waiter in *. rewrite E1, E2. done.
    + apply list_lookup_singleton_Some in Hy as [Hi0 <-].
      assert (Z.of_nat i = Game.turn_count g) as -> by lia.
      exists p2, s. unfold mover, waiter in *. rewrite E1, E2. done.
Qed.

Lemma process_guess_play_inv env game_id player_id guessed_number st :
  four_digits guessed_number = true ->
  store_inv st -> store_play_inv st ->
  store_play_inv
    (fst (process_guess env game_id player_id guessed_number st)).
Proof.
  intros Hfour Hinv Hplay.
  destruct (process_guess env game_id player_id guessed_number st)
    as [st' [r|e]] eqn:Hrun; cbn.
  2:{ apply process_guess_Raise in Hrun
        as [->|(g & opponent & secret & m & Hg & _ & _ & _ & Hm & Hc & _)];
        [done|].
      rewrite (constraints_hold secret guessed_number) in Hc; try done.
      - by apply four_digits_length.
      - rewrite (inv_count _ _ _ (Hinv game_id g Hg)). lia. }
  apply process_guess_Ok in Hrun
    as (g & opponent & secret & m & g' & Hg & Hs & Hturn & _ & Hopp & Hsec
        & Hm & _ & Hg' & -> & _).
  destruct (Hinv _ _ Hg) as [Hkey Hcount _ _ _ Hstarted].
  pose proof (Hplay _ _ Hg) as Hgp.
  destruct (play_turn _ _ Hgp Hs) as (p2 & Hp2 & Hcur).
  assert (Player.player_id (Game.player_1 g) <> Player.player_id p2) as Hne.
  { apply (play_slot_2 _ _ Hgp p2 Hp2).
    specialize (Hstarted ltac:(by rewrite Hs)). unfold both_ready in Hstarted.
    rewrite Hp2 in Hstarted. by apply andb_true_iff in Hstarted as [_ ?]. }
  assert (player_id = Player.player_id (mover g p2 (Game.turn_count g)))
    as Hmover by congruence.
  assert (opponent = waiter g p2 (Game.turn_count g)) as Hwaiter.
  { unfold get_opponent in Hopp. unfold mover, waiter in *.
    destruct (Z.even (Game.turn_count g)).
    - rewrite bool_decide_eq_true_2 in Hopp by done. congruence.
    - rewrite bool_decide_eq_false_2 in Hopp by congruence. congruence. }
  set (guess := guess_of _ _ _ _ _ _ _) in *.
  assert (Game.game_id g' = game_id /\ play_inv game_id g') as [Hkey' Hgp'].
  { assert (forall g0 : Game.t,
              Game.game_id g0 = Game.game_id g ->
              Game.player_1 g0 = Game.player_1 g ->
              Game.player_2 g0 = Game.player_2 g ->
              Game.guesses g0 = Game.guesses g ++ [guess] ->
              Game.turn_count g0 = Game.turn_count g + 1 ->
              (if bool_decide (correct_positions m = 4)
               then Game.status g0 = COMPLETED
                    /\ Game.winner_id g0 = Some player_id
               else Game.status g0 = IN_PROGRESS
                    /\ Game.winner_id g0 = None
                    /\ Game.current_turn g0
                       = Some (Player.player_id
                                 (mover g p2 (Game.turn_count g + 1)))) ->
              Game.game_id g0 = game_id /\ play_inv game_id g0) as Hstep.
    { intros g0 E0 E1 E2 E3 E4 Hcase. split; [congruence|].
      apply (play_inv_guess game_id g p2 guess secret); try done.
      - by rewrite <-Hwaiter.
      - by rewrite <-Hwaiter.
      - cbn. by destruct m. }
    unfold check_winner in Hg'. case_bool_decide as Hwin.
    - subst g'. apply Hstep; try done; by rewrite bool_decide_eq_true_2.
    - unfold switch_turn, recorded in Hg'. cbn in Hg'.
      rewrite Hp2, Hcur in Hg'.
      assert (g' = Game.set_current_turn (recorded g guess)
                     (Some (Player.player_id
                              (mover g p2 (Game.turn_count g + 1))))) as ->.
      { unfold mover in *. rewrite even_succ.
        destruct (Z.even (Game.turn_count g)); cbn.
        - rewrite bool_decide_eq_true_2 in Hg' by done. by simplify_eq.
        - rewrite bool_decide_eq_false_2 in Hg' by congruence.
          by simplify_eq. }
      apply Hstep; try done. cbn. split_and!; try done.
      apply (play_open _ _ Hgp). by rewrite Hs. }
  by apply (store_play_inv_games st _ game_id g').
Qed.

Lemma handle_play_inv env req st :
  store_inv st -> store_play_inv st -> store_play_inv (handle env req st).
Proof.
  intros Hinv Hplay. unfold handle.
  destruct (schema_valid req) eqn:Hvalid; [|done].
  destruct req; cbn in *.
  - by apply create_new_game_play_inv.
  - by apply join_game_play_inv.
  - by apply lock_player_number_play_inv.
  - by apply process_guess_play_inv.
  - by apply delete_game_by_id_play_inv.
Qed.

Lemma reachable_play_inv st : reachable st -> store_play_inv st.
Proof.
  induction 1 as [|env req st Hst IH].
  - intros key g. cbn. by rewrite lookup_empty.
  - apply handle_play_inv; [by apply reachable_inv|done].
Qed.

End PlayInvariant.

(** ** Creating, joining, deleting *)

(** X5. [create_new_game] with a name of 1 to 50 characters files a fresh
    WAITING game under the generated identifier -- creator in slot 1 with no
    secret, nobody in slot 2, no turn, no winner, no guess -- which
    [get_game_status] and [get_game_guesses] then return, and leaves every
    other game as it was; with any other name it raises pydantic's
    [ValidationError] and changes nothing. *)
Theorem create_new_game_then_get (env : Env) (player_name : string)
    (st : Store) :
  if name_length_ok player_name then
    exists (st' : Store) (game : Game.t),
      create_new_game env player_name st
      = (st', Ok (game, generate_player_id env))
      /\ game
         = {| Game.game_id := generate_game_id env;
              Game.player_1 :=
                {| Player.player_id := generate_player_id env;
                   Player.name := player_name;
                   Player.secret_number := None;
                   Player.is_ready := false |};
              Game.player_2 := None; Game.current_turn := None;
              Game.status := WAITING; Game.winner_id := None;
              Game.guesses := []; Game.created_at := utcnow env;
              Game.turn_count := 0 |}
      /\ get_game_status (generate_game_id env) st' = (st', Ok game)
      /\ get_game_guesses (generate_game_id env) st' = (st', Ok [])
      /\ (forall key : string,
            key <> generate_game_id env ->
            games_db st' !! key = games_db st !! key
            /\ game_guesses_db st' !! key = game_guesses_db st !! key)
  else create_new_game env player_name st = (st, Raise ValidationError).
Proof.
  rewrite create_new_game_run.
  destruct (name_length_ok player_name); [|done].
  eexists _, _. split; [reflexivity|]. split; [reflexivity|].
  unfold get_game_status, get_game_guesses, store.get_guesses_by_game.
  unfold_M. cbn. rewrite !lookup_insert_eq. cbn.
  rewrite !lookup_insert_eq. split_and!; try done.
  intros key Hne. by rewrite !lookup_insert_ne.
Qed.

(** X6. [join_game] on a stored game with an empty slot 2 that is not
    COMPLETED, with a name of 1 to 50 characters, puts a new player without
    secret in slot 2 and changes nothing else of the game; after it, every
    further [join_game] on that game raises [GameFullError] and leaves the
    store alone. *)
Theorem join_game_fills_slot_2 (env : Env) (game_id player_name : string)
    (st : Store) (g : Game.t) :
  games_db st !! game_id = Some g ->
  Game.player_2 g = None ->
  Game.status g <> COMPLETED ->
  name_length_ok player_name = true ->
  exists (st' : Store) (g' : Game.t),
    join_game env game_id player_name st
    = (st', Ok (g', generate_player_id env))
    /\ games_db st' !! game_id = Some g'
    /\ g' = Game.set_player_2 g
              (Some {| Player.player_id := generate_player_id env;
                       Player.name := player_name;
                       Player.secret_number := None;
                       Player.is_ready := false |})
    /\ game_guesses_db st' = game_guesses_db st
    /\ (forall (env' : Env) (name' : string),
          join_game env' game_id name' st' = (st', Raise GameFullError)).
Proof.
  intros Hg Hp2 Hs Hname. rewrite join_game_run, Hg.
  rewrite bool_decide_eq_false_2 by (by intros []).
  rewrite bool_decide_eq_false_2 by done. rewrite Hname.
  eexists _, _. split; [reflexivity|].
  split; [apply lookup_put_ref|]. split; [reflexivity|]. split; [done|].
  intros env' name'. rewrite join_game_run, lookup_put_ref.
  by rewrite bool_decide_eq_true_2.
Qed.

Lemma join_game_fills_slot_2_witness :
  exists g : Game.t,
    games_db created !! "game_1" = Some g
    /\ Game.player_2 g = None
    /\ Game.status g <> COMPLETED
    /\ name_length_ok "Bob" = true
    /\ exists (st' : Store) (g' : Game.t),
         join_game bob_env "game_1" "Bob" created
         = (st', Ok (g', generate_player_id bob_env))
         /\ games_db st' !! "game_1" = Some g'
         /\ g' = Game.set_player_2 g
                   (Some {| Player.player_id := generate_player_id bob_env;
                            Player.name := "Bob";
                            Player.secret_number := None;
                            Player.is_ready := false |})
         /\ game_guesses_db st' = game_guesses_db created
         /\ (forall (env' : Env) (name' : string),
               join_game env' "game_1" name' st'
               = (st', Raise GameFullError)).
Proof.
  assert (Hg : exists g, games_db created !! "game_1" = Some g
                         /\ Game.player_2 g = None
                         /\ Game.status g = WAITING).
  { eexists. repeat split; vm_compute; reflexivity. }
  destruct Hg as (g & Hg & Hp2 & Hs). exists g.
  assert (Game.status g <> COMPLETED) as Hnot by (rewrite Hs; discriminate).
  exact (conj Hg (conj Hp2 (conj Hnot (conj eq_refl
           (join_game_fills_slot_2 bob_env "game_1" "Bob" created g
              Hg Hp2 Hnot eq_refl))))).
Defined.

(** X13. [delete_game_by_id] on a stored game removes the game and its
    guess history and nothing else; from then on every service that names
    the game -- get, guesses, join, lock, guess, a second delete -- raises
    [GameNotFoundError]. *)
Theorem delete_game_by_id_forgets (game_id : string) (st : Store)
    (g : Game.t) :
  games_db st !! game_id = Some g ->
  exists st' : Store,
    delete_game_by_id game_id st = (st', Ok true)
    /\ games_db st' !! game_id = None
    /\ game_guesses_db st' !! game_id = None
    /\ (forall key : string,
          key <> game_id ->
          games_db st' !! key = games_db st !! key
          /\ game_guesses_db st' !! key = game_guesses_db st !! key)
    /\ get_game_status game_id st' = (st', Raise GameNotFoundError)
    /\ get_game_guesses game_id st' = (st', Raise GameNotFoundError)
    /\ delete_game_by_id game_id st' = (st', Raise GameNotFoundError)
    /\ (forall (env : Env) (a b : string),
          join_game env game_id a st' = (st', Raise GameNotFoundError)
          /\ lock_player_number game_id a b st'
             = (st', Raise GameNotFoundError)
          /\ process_guess env game_id a b st'
             = (st', Raise GameNotFoundError)).
Proof.
  intros Hg. rewrite delete_game_by_id_run, Hg.
  eexists. split; [reflexivity|]. cbn.
  assert (delete game_id (games_db st) !! game_id = None) as Hgone
    by apply lookup_delete_eq.
  split; [done|]. split; [apply lookup_delete_eq|]. split.
  { intros key Hne. by rewrite !lookup_delete_ne. }
  split_and!.
  - unfold get_game_status. unfold_M. cbn. by rewrite Hgone.
  - unfold get_game_guesses. unfold_M. cbn. by rewrite Hgone.
  - rewrite delete_game_by_id_run. cbn. by rewrite Hgone.
  - intros env a b. split_and!.
    + rewrite join_game_run. cbn. by rewrite Hgone.
    + rewrite lock_player_number_run. cbn. by rewrite Hgone.
    + unfold process_guess. unfold_M. cbn. by rewrite Hgone.
Qed.

Lemma delete_game_by_id_forgets_witness :
  exists (g : Game.t) (st' : Store),
    games_db completed !! "game_1" = Some g
    /\ delete_game_by_id "game_1" completed = (st', Ok true)
    /\ games_db st' !! "game_1" = None
    /\ game_guesses_db st' !! "game_1" = None
    /\ get_game_status "game_1" st' = (st', Raise GameNotFoundError).
Proof.
  assert (Hg : exists g, games_db completed !! "game_1" = Some g).
  { eexists. vm_compute. reflexivity. }
  destruct Hg as (g & Hg).
  destruct (delete_game_by_id_forgets "game_1" completed g Hg)
    as (st' & Hdel & Hgone & Hhist & _ & Hget & _).
  exists g, st'.
  exact (conj Hg (conj Hdel (conj Hgone (conj Hhist Hget)))).
Defined.

(** ** Locking and guessing: every outcome *)

Section Outcomes.

Implicit Types (st : Store) (g game : Game.t) (env : Env).

Lemma lock_slot_find_player g player_id secret_number :
  lock_slot g player_id secret_number
  = match find_player g player_id with
    | None => Raise PlayerNotInGameError
    | Some p =>
        if Player.is_ready p then Raise NumberAlreadyLockedError
        else
          Ok (if bool_decide (Player.player_id (Game.player_1 g) = player_id)
              then Game.set_player_1 g (Player.lock p secret_number)
              else Game.set_player_2 g (Some (Player.lock p secret_number)))
    end.
Proof.
  unfold lock_slot, find_player.
  destruct (bool_decide (Player.player_id (Game.player_1 g) = player_id));
    [done|].
  destruct (Game.player_2 g) as [p2|]; [|done].
  destruct (bool_decide (Player.player_id p2 = player_id)); done.
Qed.

(** [process_guess], branch by branch. *)
Lemma process_guess_run env game_id player_id guessed_number st :
  process_guess env game_id player_id guessed_number st
  = match games_db st !! game_id with
    | None => (st, Raise GameNotFoundError)
    | Some game =>
        match Game.status game with
        | WAITING => (st, Raise GameNotStartedError)
        | COMPLETED => (st, Raise GameAlreadyCompletedError)
        | IN_PROGRESS =>
            match find_player game player_id with
            | None => (st, Raise PlayerNotInGameError)
            | Some _ =>
                if negb (validate_turn game player_id)
                then (st, Raise NotYourTurnError)
                else
                  match get_opponent game player_id with
                  | None => (st, Raise AttributeError)
                  | Some opponent =>
                      match Player.secret_number opponent with
                      | None => (st, Raise TypeError)
                      | Some secret =>
                          match calculate_match secret guessed_number with
                          | Raise e => (st, Raise e)
                          | Ok m =>
                              let turn := Game.turn_count game + 1 in
                              let guess :=
                                guess_of env game_id player_id guessed_number
                                  opponent m turn in
                              let st1 := fst (store.add_guess guess st) in
                              let answer win next winner :=
                                {| GuessResult.guess_id :=
                                     generate_guess_id env;
                                   GuessResult.guessed_number :=
                                     guessed_number;
                                   GuessResult.correct_digits :=
                                     correct_digits m;
                                   GuessResult.correct_positions :=
                                     correct_positions m;
                                   GuessResult.is_winner := win;
                                   GuessResult.next_turn := next;
                                   GuessResult.winner_id := winner;
                                   GuessResult.turn_number := turn |} in
                              if negb (Guess.constraints (correct_digits m)
                                         (correct_positions m) turn)
                              then
                                ({| games_db :=
                                      <[game_id :=
                                          Game.set_turn_count game turn]>
                                        (games_db st);
                                    game_guesses_db := game_guesses_db st |},
                                 Raise ValidationError)
                              else if check_winner (correct_positions m)
                              then
                                (put game_id
                                   (won (recorded game guess) player_id) st1,
                                 Ok (answer true None (Some player_id)))
                              else
                                match switch_turn (recorded game guess) with
                                | Ok game' =>
                                    (put game_id game' st1,
                                     Ok (answer false
                                           (Game.current_turn game') None))
                                | Raise e =>
                                    ({| games_db :=
                                          <[game_id := recorded game guess]>
                                            (games_db st);
                                        game_guesses_db :=
                                          game_guesses_db st1 |},
                                     Raise e)
                                end
                          end
                      end
                  end
            end
        end
    end.
Proof.
  unfold process_guess. unfold_M. cbn.
  destruct (games_db st !! game_id) as [game|] eqn:Hg; [|done].
  case_bool_decide as Hw; [by rewrite Hw|].
  case_bool_decide as Hc; [by rewrite Hc|].
  destruct (Game.status game) eqn:Hs; [done| |done].
  assert (negb (bool_decide (Player.player_id (Game.player_1 game)
                             = player_id))
          && negb match Game.player_2 game with
                  | Some player_2 =>
                      bool_decide (Player.player_id player_2 = player_id)
                  | None => false
                  end
          = match find_player game player_id with
            | None => true
            | Some _ => false
            end) as ->.
  { unfold find_player.
    destruct (bool_decide (Player.player_id (Game.player_1 game)
                           = player_id)); [done|].
    destruct (Game.player_2 game) as [p2|]; [|done].
    destruct (bool_decide (Player.player_id p2 = player_id)); done. }
  destruct (find_player game player_id); [|done].
  destruct (negb (validate_turn _ _)) eqn:Hturn; [done|].
  destruct (get_opponent game player_id) as [opponent|] eqn:Hopp;
    cbn; [|done].
  destruct (Player.secret_number opponent) as [secret|] eqn:Hsec;
    cbn; [|done].
  destruct (calculate_match secret guessed_number) as [m|] eqn:Hm;
    cbn; [|done].
  unfold Guess.new.
  destruct (Guess.constraints _ _ _) eqn:Hok; cbn; [|done].
  destruct (check_winner _) eqn:Hwin; cbn.
  - unfold put. cbn. rewrite !insert_insert_eq. done.
  - destruct (switch_turn _) as [game3|] eqn:Hsw; cbn.
    + assert (Game.turn_count game3 = Game.turn_count game + 1) as Hcount.
      { unfold switch_turn in Hsw. repeat case_match; by simplify_eq. }
      unfold put. cbn. rewrite !insert_insert_eq, Hcount. done.
    + rewrite !insert_insert_eq. done.
Qed.

End Outcomes.

(** X7. Every outcome of [lock_player_number], in the order the checks are
    made: no such game, game COMPLETED, identifier in neither slot, slot
    already ready -- each leaving the store untouched -- and otherwise
    success, which rewrites that one slot and nothing else of the game but,
    when both are then ready, its status and current turn. *)
Theorem lock_player_number_outcome (game_id player_id secret_number : string)
    (st : Store) :
  let call := lock_player_number game_id player_id secret_number st in
  match games_db st !! game_id with
  | None => call = (st, Raise GameNotFoundError)
  | Some g =>
      if bool_decide (Game.status g = COMPLETED)
      then call = (st, Raise GameAlreadyCompletedError)
      else
        match find_player g player_id with
        | None => call = (st, Raise PlayerNotInGameError)
        | Some p =>
            if Player.is_ready p
            then call = (st, Raise NumberAlreadyLockedError)
            else
              exists (st' : Store) (g' : Game.t),
                call = (st', Ok g')
                /\ games_db st' !! game_id = Some g'
                /\ game_guesses_db st' = game_guesses_db st
                /\ find_player g' player_id
                   = Some (Player.lock p secret_number)
                /\ (if bool_decide
                         (Player.player_id (Game.player_1 g) = player_id)
                    then Game.player_2 g' = Game.player_2 g
                    else Game.player_1 g' = Game.player_1 g)
                /\ Game.game_id g' = Game.game_id g
                /\ Game.guesses g' = Game.guesses g
                /\ Game.turn_count g' = Game.turn_count g
                /\ Game.winner_id g' = Game.winner_id g
                /\ Game.created_at g' = Game.created_at g
                /\ Game.status g'
                   = (if both_ready g' then IN_PROGRESS else Game.status g)
        end
  end.
Proof.
  cbn zeta. rewrite lock_player_number_run.
  destruct (games_db st !! game_id) as [g|]; [|done].
  case_bool_decide; [done|]. rewrite lock_slot_find_player.
  destruct (find_player g player_id) as [p|] eqn:Hp; [|done].
  destruct (Player.is_ready p) eqn:Hready; [done|].
  eexists _, _. split; [reflexivity|]. split; [apply lookup_put_ref|].
  split; [done|].
  unfold find_player in Hp. unfold start_if_ready.
  case_bool_decide as Hid; simplify_eq.
  - match goal with
    | |- context [if both_ready ?x then _ else _] =>
        destruct (both_ready x) eqn:Hboth
    end;
      unfold find_player; cbn; rewrite bool_decide_eq_true_2 by done;
      split_and!; try done; unfold both_ready in *; cbn in *;
      by rewrite Hboth.
  - destruct (Game.player_2 g) as [p2|] eqn:Hp2; [|done].
    case_bool_decide; simplify_eq.
    match goal with
    | |- context [if both_ready ?x then _ else _] =>
        destruct (both_ready x) eqn:Hboth
    end;
      unfold find_player; cbn; rewrite bool_decide_eq_false_2 by done;
      rewrite bool_decide_eq_true_2 by done;
      split_and!; try done; unfold both_ready in *; cbn in *;
      by rewrite Hboth.
Qed.

(** In a started game of a reachable store: two distinct players, both with
    a four-digit secret, and the turn with the mover. *)
Lemma started_game_shape (st : Store) (key : string) (g : Game.t) :
  reachable st ->
  games_db st !! key = Some g ->
  Game.status g <> WAITING ->
  exists (p2 : Player.t) (s1 s2 : string),
    Game.player_2 g = Some p2
    /\ Player.player_id (Game.player_1 g) <> Player.player_id p2
    /\ Player.is_ready (Game.player_1 g) = true
    /\ Player.is_ready p2 = true
    /\ Player.secret_number (Game.player_1 g) = Some s1
    /\ four_digits s1 = true
    /\ Player.secret_number p2 = Some s2
    /\ four_digits s2 = true
    /\ Game.turn_count g = Z.of_nat (length (Game.guesses g)).
Proof.
  intros Hst Hg Hs.
  pose proof (reachable_inv _ Hst _ _ Hg) as Hi.
  pose proof (reachable_play_inv _ Hst _ _ Hg) as Hp.
  pose proof (inv_started _ _ _ Hi Hs) as Hboth. unfold both_ready in Hboth.
  destruct (Game.player_2 g) as [p2|] eqn:Hp2;
    [|by rewrite andb_false_r in Hboth].
  apply andb_true_iff in Hboth as [Hr1 Hr2].
  destruct (play_slot_2 _ _ Hp p2 Hp2) as [Hok2 Hne].
  pose proof (play_slot_1 _ _ Hp) as Hok1.
  unfold slot_ok in *. rewrite Hr1 in Hok1. rewrite Hr2 in Hok2.
  destruct Hok1 as (s1 & ? & ?), Hok2 as (s2 & ? & ?).
  exists p2, s1, s2. split_and!; try done; [by apply Hne|].
  apply (inv_count _ _ _ Hi).
Qed.

(** X8. In a reachable store, with a guess that passed the schema,
    [process_guess] has exactly these outcomes, in this order: no such game;
    game not started; game completed; identifier in neither slot; not the
    caller's turn -- each leaving the store untouched -- and otherwise it
    succeeds.  It then scores the guess against the other player's secret,
    counts one turn, wins exactly when the guess is that secret, and hands
    the turn to the other player when it does not win. *)
Theorem process_guess_outcome (env : Env)
    (game_id player_id guessed_number : string) (st : Store) :
  reachable st ->
  four_digits guessed_number = true ->
  let call := process_guess env game_id player_id guessed_number st in
  match games_db st !! game_id with
  | None => call = (st, Raise GameNotFoundError)
  | Some g =>
      match Game.status g with
      | WAITING => call = (st, Raise GameNotStartedError)
      | COMPLETED => call = (st, Raise GameAlreadyCompletedError)
      | IN_PROGRESS =>
          match find_player g player_id with
          | None => call = (st, Raise PlayerNotInGameError)
          | Some _ =>
              if bool_decide (Game.current_turn g = Some player_id)
              then
                exists (st' : Store) (r : GuessResult.t)
                       (opponent : Player.t) (secret : string)
                       (m : MatchResult),
                  call = (st', Ok r)
                  /\ get_opponent g player_id = Some opponent
                  /\ Player.player_id opponent <> player_id
                  /\ Player.secret_number opponent = Some secret
                  /\ calculate_match secret guessed_number = Ok m
                  /\ GuessResult.correct_digits r = correct_digits m
                  /\ GuessResult.correct_positions r = correct_positions m
                  /\ GuessResult.turn_number r = Game.turn_count g + 1
                  /\ (GuessResult.is_winner r = true
                      <-> guessed_number = secret)
                  /\ (if GuessResult.is_winner r
                      then GuessResult.winner_id r = Some player_id
                           /\ GuessResult.next_turn r = None
                      else GuessResult.winner_id r = None
                           /\ GuessResult.next_turn r
                              = Some (Player.player_id opponent))
              else call = (st, Raise NotYourTurnError)
          end
      end
  end.
Proof.
  intros Hst Hfour. cbn zeta. rewrite process_guess_run.
  destruct (games_db st !! game_id) as [g|] eqn:Hg; [|done].
  destruct (Game.status g) eqn:Hs; [done| |done].
  destruct (find_player g player_id) as [p|] eqn:Hp; [|done].
  unfold validate_turn.
  case_bool_decide as Hturn; [|done]. cbn [negb].
  destruct (started_game_shape st game_id g Hst Hg)
    as (p2 & s1 & s2 & Hp2 & Hne & _ & _ & Hs1 & Hf1 & Hs2 & Hf2 & Hcount);
    [by rewrite Hs|].
  destruct (play_turn _ _ (reachable_play_inv _ Hst _ _ Hg) Hs)
    as (p2' & Hp2' & Hcur).
  assert (p2' = p2) as -> by congruence.
  assert (exists opponent secret,
            get_opponent g player_id = Some opponent
            /\ Player.player_id opponent <> player_id
            /\ Player.secret_number opponent = Some secret
            /\ four_digits secret = true
            /\ (if bool_decide (Game.current_turn g
                                = Some (Player.player_id (Game.player_1 g)))
                then Player.player_id p2
                else Player.player_id (Game.player_1 g))
               = Player.player_id opponent)
    as (opponent & secret & Hopp & Hother & Hsec & Hfs & Hnext).
  { unfold get_opponent. rewrite Hturn in Hcur. injection Hcur as Hcur.
    rewrite Hturn. unfold mover in Hcur.
    destruct (Z.even (Game.turn_count g)).
    - rewrite !bool_decide_eq_true_2 by congruence.
      exists p2, s2. split_and!; try done. congruence.
    - rewrite !bool_decide_eq_false_2 by congruence.
      exists (Game.player_1 g), s1. split_and!; try done. congruence. }
  rewrite Hopp, Hsec.
  destruct (calculate_match_four_digits secret guessed_number Hfs Hfour)
    as [m Hm].
  rewrite Hm. cbn zeta.
  rewrite (constraints_hold secret guessed_number)
    by (done || by apply four_digits_length || lia).
  cbn [negb].
  assert (check_winner (correct_positions m) = true
          <-> guessed_number = secret) as Hwin.
  { unfold check_winner. rewrite bool_decide_eq_true.
    destruct (four_chars_counts secret guessed_number m) as [_ Hiff];
      [by apply four_digits_length..|done|].
    rewrite Hiff. split; congruence. }
  destruct (check_winner (correct_positions m)) eqn:Hcheck.
  - eexists _, _, opponent, secret, m. split; [reflexivity|].
    split_and!; try done.
  - unfold switch_turn. cbn [recorded Game.current_turn Game.player_2
      Game.player_1 Game.set_guesses Game.set_turn_count].
    rewrite Hp2.
    destruct (bool_decide (Game.current_turn g
                           = Some (Player.player_id (Game.player_1 g))));
      (eexists _, _, opponent, secret, m; split; [reflexivity|]);
      split_and!; try done; cbn; by rewrite <-Hnext.
Qed.

(** Alice to move in [started]: her guess "5670" is scored against Bob's
    "5678", does not win, and the turn goes to Bob. *)
Lemma process_guess_outcome_witness :
  reachable started
  /\ four_digits "5670" = true
  /\ exists (g p : Game.t * Player.t) (st' : Store) (r : GuessResult.t),
       games_db started !! "game_1" = Some (fst g)
       /\ Game.status (fst g) = IN_PROGRESS
       /\ find_player (fst g) "player_a" = Some (snd g)
       /\ Game.current_turn (fst g) = Some "player_a"
       /\ process_guess alice_env "game_1" "player_a" "5670" started
          = (st', Ok r)
       /\ GuessResult.correct_digits r = 3
       /\ GuessResult.correct_positions r = 3
       /\ GuessResult.is_winner r = false
       /\ GuessResult.next_turn r = Some "player_b".
Proof.
  split; [exact reachable_started|]. split; [reflexivity|].
  pose proof (process_guess_outcome alice_env "game_1" "player_a" "5670"
                started reachable_started eq_refl) as H.
  cbn zeta in H.
  assert (Hg : exists g p,
            games_db started !! "game_1" = Some g
            /\ Game.status g = IN_PROGRESS
            /\ find_player g "player_a" = Some p
            /\ Game.current_turn g = Some "player_a").
  { eexists _, _. repeat split; vm_compute; reflexivity. }
  destruct Hg as (g & p & Hg & Hs & Hp & Hturn).
  rewrite Hg, Hs, Hp, Hturn in H.
  rewrite bool_decide_eq_true_2 in H by done.
  destruct H as (st' & r & opponent & secret & m & Hcall & _).
  exists (g, p), (g, p), st', r. cbn [fst snd].
  assert (Hr : r = {| GuessResult.guess_id := "guess_1";
                      GuessResult.guessed_number := "5670";
                      GuessResult.correct_digits := 3;
                      GuessResult.correct_positions := 3;
                      GuessResult.is_winner := false;
                      GuessResult.next_turn := Some "player_b";
                      GuessResult.winner_id := None;
                      GuessResult.turn_number := 1 |}).
  { assert (snd (process_guess alice_env "game_1" "player_a" "5670" started)
            = Ok r) as Hsnd by (by rewrite Hcall).
    vm_compute in Hsnd. congruence. }
  rewrite Hr.
  exact (conj Hg (conj Hs (conj Hp (conj Hturn (conj
           (eq_trans Hcall (f_equal (fun x => (st', Ok x)) Hr))
           (conj eq_refl (conj eq_refl (conj eq_refl eq_refl)))))))).
Defined.
